(** * json-schema-form: a shallow embedding of the form pipeline

    The development follows the layout of the TypeScript sources:

    - [jsval] : JavaScript data as the library receives it ([SchemaValue] in
      [src/types.ts], schemas being plain objects of the same kind);
    - the layout helpers of [src/utils/layout.ts];
    - the rule interpreter, the conditional schema resolver, the schema
      validator, the field builder and the error path transformation that
      [createHeadlessForm] sequences.

    Definitions come first, the statements about them second. *)

From Stdlib Require Import String Ascii List ZArith QArith Qround Qabs Bool Arith Lia.
Import ListNotations.
Close Scope Q_scope.
Open Scope string_scope.
Open Scope list_scope.

Set Implicit Arguments.

(* ===================================================================== *)
(** * 1. JavaScript values                                                *)
(* ===================================================================== *)

(** A JavaScript [number]: a finite value (kept as a rational), or one of
    the three non-finite values. *)
Inductive jsnum : Type :=
| NFin (q : Q)
| NNaN
| NPosInf
| NNegInf.

(** [SchemaValue] of [src/types.ts], closed under what a caller can put in
    an [any]-typed argument: [undefined] and function values included.
    An object is the list of its own enumerable properties, in the
    engine's key order. *)
Unset Elimination Schemes.
Inductive jsval : Type :=
| VUndef
| VNull
| VBool (b : bool)
| VNum (n : jsnum)
| VStr (s : string)
| VArr (items : list jsval)
| VObj (props : list (string * jsval))
| VFun (tag : nat).
Set Elimination Schemes.

Definition jint (z : Z) : jsval := VNum (NFin (inject_Z z)).

(** ** Association lists: the property table of an object *)

Fixpoint assoc {A : Type} (k : string) (l : list (string * A)) : option A :=
  match l with
  | [] => None
  | (k', v) :: rest => if String.eqb k k' then Some v else assoc k rest
  end.

Definition has_key {A : Type} (k : string) (l : list (string * A)) : bool :=
  match assoc k l with Some _ => true | None => false end.

(** [obj[k] = v]: overwrite in place when [k] is present, append otherwise. *)
Fixpoint set_key {A : Type} (k : string) (v : A) (l : list (string * A))
  : list (string * A) :=
  match l with
  | [] => [(k, v)]
  | (k', v') :: rest =>
      if String.eqb k k' then (k', v) :: rest else (k', v') :: set_key k v rest
  end.

Definition keys {A : Type} (l : list (string * A)) : list string := map fst l.

(** Decimal rendering of an array index, as used for the keys of an array. *)
Fixpoint digits_of (fuel n : nat) (acc : string) : string :=
  match fuel with
  | O => acc
  | S fuel' =>
      let d := String (ascii_of_nat (48 + n mod 10)) acc in
      if (n / 10 =? 0)%nat then d else digits_of fuel' (n / 10) d
  end.

Definition nat_to_string (n : nat) : string := digits_of (S n) n "".

Fixpoint index_entries (i : nat) (l : list jsval) : list (string * jsval) :=
  match l with
  | [] => []
  | x :: rest => (nat_to_string i, x) :: index_entries (S i) rest
  end.

(** Own enumerable properties, as [Object.keys] / object spread see them. *)
Definition own_entries (v : jsval) : list (string * jsval) :=
  match v with
  | VObj props => props
  | VArr items => index_entries 0 items
  | _ => []
  end.

(** Property read [v[k]] on a value that is neither [null] nor
    [undefined]; a missing property reads as [undefined].  Only data
    properties are modelled (no [length], no prototype chain): the callers
    below read fixed, non-index keys. *)
Definition getProp (v : jsval) (k : string) : jsval :=
  match assoc k (own_entries v) with
  | Some x => x
  | None => VUndef
  end.

Definition hasOwn (v : jsval) (k : string) : bool := has_key k (own_entries v).

(** ** Primitive operators *)

Definition num_is_zero (n : jsnum) : bool :=
  match n with
  | NFin q => (Qnum q =? 0)%Z
  | _ => false
  end.

(** [ToBoolean]. *)
Definition truthy (v : jsval) : bool :=
  match v with
  | VUndef | VNull => false
  | VBool b => b
  | VNum NNaN => false
  | VNum n => negb (num_is_zero n)
  | VStr s => negb (String.eqb s "")
  | VArr _ | VObj _ | VFun _ => true
  end.

(** [a || b] *)
Definition js_or (a b : jsval) : jsval := if truthy a then a else b.

Inductive jstype : Type :=
| TyUndefined | TyObject | TyBoolean | TyNumber | TyString | TyFunction.

(** [typeof v] *)
Definition typeof (v : jsval) : jstype :=
  match v with
  | VUndef => TyUndefined
  | VNull | VArr _ | VObj _ => TyObject
  | VBool _ => TyBoolean
  | VNum _ => TyNumber
  | VStr _ => TyString
  | VFun _ => TyFunction
  end.

Definition is_undefined (v : jsval) : bool :=
  match v with VUndef => true | _ => false end.

Definition q_is_integer (q : Q) : bool :=
  (Z.rem (Qnum q) (Zpos (Qden q)) =? 0)%Z.

(** [Number.isInteger(v)] *)
Definition isInteger (v : jsval) : bool :=
  match v with
  | VNum (NFin q) => q_is_integer q
  | _ => false
  end.

(** [v < 1] for a [number] operand. *)
Definition lt_one (v : jsval) : bool :=
  match v with
  | VNum (NFin q) => negb (Qle_bool (inject_Z 1) q)
  | VNum NNegInf => true
  | _ => false
  end.

(* ===================================================================== *)
(** * 2. Layout helpers ([src/utils/layout.ts])                           *)
(* ===================================================================== *)

(** [DEFAULT_LAYOUT_CONFIG] *)
Definition DEFAULT_LAYOUT_CONFIG : jsval :=
  VObj [("type", VStr "columns"); ("columns", jint 1); ("gap", VStr "16px")].

(** [value !== undefined && (!Number.isInteger(value) || value < 1)] *)
Definition bad_count (value : jsval) : bool :=
  negb (is_undefined value) && (negb (isInteger value) || lt_one value).

Definition responsiveKeys : list string := ["sm"; "md"; "lg"; "xl"].

(** The [for (const key of responsiveKeys)] loop: [true] when some
    breakpoint makes the validator return [false]. *)
Definition bad_responsive (r : jsval) : bool :=
  existsb (fun key => bad_count (getProp r key)) responsiveKeys.

Definition colProps : list string := ["colSpan"; "colStart"; "colEnd"].

(** One round of the [for (const prop of colProps)] loop. *)
Definition bad_col_prop (value : jsval) : bool :=
  if is_undefined value then false
  else match typeof value with
       | TyNumber => negb (isInteger value) || lt_one value
       | TyObject =>
           match value with
           | VNull => true
           | _ => bad_responsive value
           end
       | _ => true
       end.

(** [isValidLayoutConfig(layout: any)] *)
Definition isValidLayoutConfig (layout : jsval) : bool :=
  if negb (truthy layout) then false
  else match typeof layout with
       | TyObject =>
           let ty := getProp layout "type" in
           if truthy ty && negb (match ty with
                                 | VStr s => String.eqb s "columns"
                                 | _ => false
                                 end) then false
           else if bad_count (getProp layout "columns") then false
           else
             let gap := getProp layout "gap" in
             if truthy gap && negb (match typeof gap with
                                    | TyString => true
                                    | _ => false
                                    end) then false
             else
               let responsive := getProp layout "responsive" in
               if truthy responsive && bad_responsive responsive then false
               else
                 negb (existsb (fun prop => bad_col_prop (getProp layout prop))
                               colProps)
       | _ => false
       end.

(** Object spread [{ ...a, ...b }]: every own enumerable key of [b] is
    read from [b] and defined on a copy of [a]. *)
Definition spread (a b : jsval) : jsval :=
  VObj (fold_left (fun acc k => set_key k (getProp b k) acc)
                  (keys (own_entries b)) (own_entries a)).

(** [normalizeLayoutConfig(layout?)] *)
Definition normalizeLayoutConfig (layout : jsval) : jsval :=
  if negb (truthy layout) || negb (isValidLayoutConfig layout)
  then DEFAULT_LAYOUT_CONFIG
  else spread DEFAULT_LAYOUT_CONFIG layout.

(** [Field] of [src/field/type.ts].  Optional members of type [unknown]
    are [jsval]s, [VUndef] when absent; [f_extra] holds the additional
    properties admitted by the index signature. *)
Record AsyncOptions : Type := mkAsyncOptions {
  ao_config : jsval;          (* the [AsyncOptionsConfig] block, verbatim *)
  ao_loader : option nat      (* handle of the attached loader function *)
}.

Unset Elimination Schemes.
Inductive Field : Type := mkField {
  f_name : string;
  f_label : option string;
  f_description : option string;
  f_fields : option (list Field);
  f_type : string;
  f_inputType : string;
  f_required : bool;
  f_jsonType : jsval;
  f_isVisible : bool;
  f_accept : jsval;
  f_errorMessage : jsval;
  f_computedAttributes : jsval;
  f_minDate : jsval;
  f_maxDate : jsval;
  f_maxLength : jsval;
  f_maxFileSize : jsval;
  f_format : jsval;
  f_anyOf : jsval;
  f_options : option (list jsval);
  f_const : jsval;
  f_checkboxValue : jsval;
  f_default : jsval;
  f_asyncOptions : option AsyncOptions;
  f_layout : jsval;
  f_rootLayout : jsval;
  f_extra : list (string * jsval)
}.
Set Elimination Schemes.

(** [getFieldLayoutInfo(field)]: [field.layout || null] *)
Definition getFieldLayoutInfo (field : Field) : jsval :=
  js_or (f_layout field) VNull.

(** [getRootLayoutInfo(field)]: [field._rootLayout || null] *)
Definition getRootLayoutInfo (field : Field) : jsval :=
  js_or (f_rootLayout field) VNull.

(** [getFormContainerLayout(fields)] *)
Definition getFormContainerLayout (fields : list Field) : jsval :=
  match fields with
  | [] => VNull                              (* [!fields.length] *)
  | first :: _ => getRootLayoutInfo first    (* [fields[0]] *)
  end.

(** The declared type of [_rootLayout]: an object, or absent. *)
Definition rootLayout_well_typed (field : Field) : Prop :=
  match f_rootLayout field with
  | VObj _ | VUndef => True
  | _ => False
  end.

(* ===================================================================== *)
(** * 3. Shared machinery of the pipeline                                 *)
(* ===================================================================== *)

(** ** Numbers *)

Definition num_eqb (a b : jsnum) : bool :=
  match a, b with
  | NFin p, NFin q => Qeq_bool p q
  | NPosInf, NPosInf | NNegInf, NNegInf => true
  | _, _ => false
  end.

Definition num_leb (a b : jsnum) : bool :=
  match a, b with
  | NNaN, _ | _, NNaN => false
  | NNegInf, _ | _, NPosInf => true
  | NFin p, NFin q => Qle_bool p q
  | _, _ => false
  end.

Definition num_ltb (a b : jsnum) : bool :=
  match a, b with
  | NNaN, _ | _, NNaN => false
  | _, _ => negb (num_leb b a)
  end.

Definition q_sign (q : Q) : comparison := Z.compare (Qnum q) 0.

Definition num_neg (a : jsnum) : jsnum :=
  match a with
  | NFin p => NFin (Qred (Qopp p))
  | NNaN => NNaN
  | NPosInf => NNegInf
  | NNegInf => NPosInf
  end.

Definition num_add (a b : jsnum) : jsnum :=
  match a, b with
  | NNaN, _ | _, NNaN => NNaN
  | NPosInf, NNegInf | NNegInf, NPosInf => NNaN
  | NPosInf, _ | _, NPosInf => NPosInf
  | NNegInf, _ | _, NNegInf => NNegInf
  | NFin p, NFin q => NFin (Qred (Qplus p q))
  end.

Definition num_sub (a b : jsnum) : jsnum := num_add a (num_neg b).

Definition inf_of_sign (c : comparison) : jsnum :=
  match c with Gt => NPosInf | Lt => NNegInf | Eq => NNaN end.

Definition num_sign (a : jsnum) : comparison :=
  match a with
  | NFin p => q_sign p
  | NPosInf => Gt
  | NNegInf => Lt
  | NNaN => Eq
  end.

Definition sign_mul (c d : comparison) : comparison :=
  match c, d with
  | Eq, _ | _, Eq => Eq
  | Gt, Gt | Lt, Lt => Gt
  | _, _ => Lt
  end.

Definition num_mul (a b : jsnum) : jsnum :=
  match a, b with
  | NNaN, _ | _, NNaN => NNaN
  | NFin p, NFin q => NFin (Qred (Qmult p q))
  | _, _ => inf_of_sign (sign_mul (num_sign a) (num_sign b))
  end.

Definition num_div (a b : jsnum) : jsnum :=
  match a, b with
  | NNaN, _ | _, NNaN => NNaN
  | NFin p, NFin q =>
      if (Qnum q =? 0)%Z then inf_of_sign (q_sign p)
      else NFin (Qred (Qdiv p q))
  | NFin _, _ => NFin (inject_Z 0)
  | _, NFin q =>
      inf_of_sign (sign_mul (num_sign a)
                            (match q_sign q with Eq => Gt | c => c end))
  | _, _ => NNaN
  end.

(** Truncation toward zero, for the remainder operator. *)
Definition q_trunc (q : Q) : Z := Z.quot (Qnum q) (Zpos (Qden q)).

Definition num_mod (a b : jsnum) : jsnum :=
  match a, b with
  | NFin p, NFin q =>
      if (Qnum q =? 0)%Z then NNaN
      else NFin (Qred (Qminus p (Qmult q (inject_Z (q_trunc (Qdiv p q))))))
  | NFin p, (NPosInf | NNegInf) => NFin p
  | _, _ => NNaN
  end.

Definition num_floor (a : jsnum) : jsnum :=
  match a with NFin p => NFin (inject_Z (Qfloor p)) | _ => a end.

Definition num_ceil (a : jsnum) : jsnum :=
  match a with NFin p => NFin (inject_Z (Qceiling p)) | _ => a end.

(** [Math.round]: the nearest integer, halves going up. *)
Definition num_round (a : jsnum) : jsnum :=
  match a with
  | NFin p => NFin (inject_Z (Qfloor (Qplus p (1 # 2))))
  | _ => a
  end.

Definition num_abs (a : jsnum) : jsnum :=
  match a with
  | NFin p => NFin (Qred (Qabs p))
  | NNaN => NNaN
  | _ => NPosInf
  end.

(** ** Deep equality of values (key order of objects is not observed) *)

Fixpoint deep_eqb (a b : jsval) : bool :=
  match a, b with
  | VUndef, VUndef | VNull, VNull => true
  | VBool x, VBool y => Bool.eqb x y
  | VNum x, VNum y => num_eqb x y
  | VStr x, VStr y => String.eqb x y
  | VFun x, VFun y => Nat.eqb x y
  | VArr xs, VArr ys =>
      (fix go (xs ys : list jsval) : bool :=
         match xs, ys with
         | [], [] => true
         | x :: xs', y :: ys' => deep_eqb x y && go xs' ys'
         | _, _ => false
         end) xs ys
  | VObj ps, VObj qs =>
      Nat.eqb (length ps) (length qs)
      && (fix go (ps : list (string * jsval)) : bool :=
            match ps with
            | [] => true
            | (k, x) :: ps' =>
                match assoc k qs with
                | Some y => deep_eqb x y
                | None => false
                end && go ps'
            end) ps
  | _, _ => false
  end.

(** Nesting depth, the measure every traversal descends along. *)
Fixpoint depth (v : jsval) : nat :=
  match v with
  | VArr xs =>
      S ((fix go (xs : list jsval) : nat :=
            match xs with
            | [] => 0
            | x :: xs' => Nat.max (depth x) (go xs')
            end) xs)
  | VObj ps =>
      S ((fix go (ps : list (string * jsval)) : nat :=
            match ps with
            | [] => 0
            | (_, x) :: ps' => Nat.max (depth x) (go ps')
            end) ps)
  | _ => 0
  end.

(** ** Outcomes: a result, a thrown failure, or an exhausted budget *)

Inductive failure : Type :=
| UnknownOperator (name : string)
| MalformedRuleReference (name : string).

Inductive outcome (A : Type) : Type :=
| Ok (a : A)
| Throw (e : failure)
| OutOfFuel.

Arguments Ok {A} a.
Arguments Throw {A} e.
Arguments OutOfFuel {A}.

Definition bind {A B : Type} (m : outcome A) (k : A -> outcome B) : outcome B :=
  match m with
  | Ok a => k a
  | Throw e => Throw e
  | OutOfFuel => OutOfFuel
  end.

Notation "x <- m ;; k" := (bind m (fun x => k))
  (at level 61, m at next level, right associativity).

Fixpoint mapM {A B : Type} (f : A -> outcome B) (l : list A)
  : outcome (list B) :=
  match l with
  | [] => Ok []
  | x :: rest => y <- f x ;; ys <- mapM f rest ;; Ok (y :: ys)
  end.

(** [mapM] with the position of every element. *)
Fixpoint mapMi {A B : Type} (f : nat -> A -> outcome B) (i : nat) (l : list A)
  : outcome (list B) :=
  match l with
  | [] => Ok []
  | x :: rest => y <- f i x ;; ys <- mapMi f (S i) rest ;; Ok (y :: ys)
  end.

Definition concatM {A B : Type} (f : A -> outcome (list B)) (l : list A)
  : outcome (list B) :=
  ls <- mapM f l ;; Ok (concat ls).

Definition concatMi {A B : Type} (f : nat -> A -> outcome (list B)) (l : list A)
  : outcome (list B) :=
  ls <- mapMi f 0 l ;; Ok (concat ls).

(** ** Strings *)

Fixpoint is_infix (p s : string) : bool :=
  String.prefix p s
  || match s with
     | EmptyString => false
     | String _ rest => is_infix p rest
     end.

(** Replace every occurrence of the non-empty pattern [pat] by [by_]. *)
Fixpoint replace_from (pat by_ : string) (skip : nat) (s : string) : string :=
  match s with
  | EmptyString => EmptyString
  | String c rest =>
      match skip with
      | S k => replace_from pat by_ k rest
      | O =>
          if String.prefix pat s
          then by_ ++ replace_from pat by_ (String.length pat - 1) rest
          else String c (replace_from pat by_ 0 rest)
      end
  end.

Definition replace_all (pat by_ s : string) : string :=
  replace_from pat by_ 0 s.

(** Split a dotted path [a.b.c] into its segments. *)
Fixpoint split_dots (s : string) (cur : string) : list string :=
  match s with
  | EmptyString => [cur]
  | String c rest =>
      if Ascii.eqb c "."%char then cur :: split_dots rest ""
      else split_dots rest (cur ++ String c "")
  end.

(** ** What the embedding takes from its surroundings

    The text-level primitives of the host (number parsing and printing,
    regular expressions, format recognisers, grapheme segmentation, the
    default message catalogue of [src/errors/messages.ts]) are parameters,
    next to the options of [createHeadlessForm] ([CreateHeadlessFormOptions]
    and [LegacyOptions] in [dist/index.d.ts]). *)
Record Env : Type := mkEnv {
  customJsonLogicOps : string -> option (list jsval -> jsval);
  asyncLoaders : list (string * nat);
  treatNullAsUndefined : bool;
  allowForbiddenValues : bool;
  strictInputType : bool;
  parse_number : string -> jsnum;
  render_value : jsval -> string;
  regex_test : string -> string -> bool;      (* pattern, subject *)
  format_valid : string -> string -> bool;    (* format name, subject *)
  grapheme_count : string -> nat;
  default_message : string -> string          (* keyword -> message *)
}.

(* ===================================================================== *)
(** * 4. Rule expression interpreter                                      *)
(* ===================================================================== *)

(** Modelled from the spec: the rule interpreter ([src/validation/json-logic.ts]
    and the [json-logic-js] evaluator behind it) is not part of the
    sources at hand.  The definitions follow section 4.1 of the
    specification and the operator list of the schema reference: an
    expression is an object with a single key, the operator, whose value is
    the operand list; anything else is a literal.  A variable that is not
    in the context reads as [undefined]; an operator that is neither built
    in nor registered fails with [UnknownOperator]; a registered operator
    never shadows a built-in one. *)

Section Interpreter.

Variable env : Env.

(** Truthiness of the rule language: as [ToBoolean], the empty array being
    false. *)
Definition logic_truthy (v : jsval) : bool :=
  match v with
  | VArr [] => false
  | _ => truthy v
  end.

Definition to_number (v : jsval) : jsnum :=
  match v with
  | VNum n => n
  | VStr s => parse_number env s
  | VBool true => NFin (inject_Z 1)
  | VBool false | VNull => NFin (inject_Z 0)
  | _ => NNaN
  end.

Definition to_str (v : jsval) : string :=
  match v with
  | VStr s => s
  | _ => render_value env v
  end.

(** [a === b] on primitives; two object operands are distinct references. *)
Definition strict_eqb (a b : jsval) : bool :=
  match a, b with
  | VUndef, VUndef | VNull, VNull => true
  | VBool x, VBool y => Bool.eqb x y
  | VNum x, VNum y => num_eqb x y
  | VStr x, VStr y => String.eqb x y
  | _, _ => false
  end.

(** [a == b] *)
Definition loose_eqb (a b : jsval) : bool :=
  match a, b with
  | (VUndef | VNull), (VUndef | VNull) => true
  | (VUndef | VNull), _ | _, (VUndef | VNull) => false
  | (VArr _ | VObj _ | VFun _), _ | _, (VArr _ | VObj _ | VFun _) => false
  | VStr x, VStr y => String.eqb x y
  | _, _ => num_eqb (to_number a) (to_number b)
  end.

Definition js_ltb (a b : jsval) : bool :=
  match a, b with
  | VStr x, VStr y => String.ltb x y
  | _, _ => num_ltb (to_number a) (to_number b)
  end.

Definition js_leb (a b : jsval) : bool :=
  match a, b with
  | VStr x, VStr y => String.leb x y
  | _, _ => num_leb (to_number a) (to_number b)
  end.

(** Descend along the segments of a variable path; [None] when a segment
    is missing. *)
Fixpoint get_path (segs : list string) (data : jsval) : option jsval :=
  match segs with
  | [] => Some data
  | s :: rest =>
      match data with
      | VObj _ | VArr _ =>
          match getProp data s with
          | VUndef => None
          | sub => get_path rest sub
          end
      | _ => None
      end
  end.

(** [{"var": [a, b]}] *)
Definition lookup_var (a b data : jsval) : jsval :=
  match a with
  | VUndef | VNull | VStr "" => data
  | _ =>
      match get_path (split_dots (to_str a) "") data with
      | Some v => v
      | None => b
      end
  end.

Definition arg (i : nat) (vals : list jsval) : jsval := nth i vals VUndef.

Definition to_int (size : Z) (v : jsval) : Z :=
  match to_number v with
  | NFin q => q_trunc q
  | NNaN => 0
  | NPosInf => size
  | NNegInf => - size
  end.

(** [String.prototype.substr(start, length)] *)
Definition js_substr (s : string) (start len : jsval) : string :=
  let size := Z.of_nat (String.length s) in
  let st := to_int size start in
  let st' := if (st <? 0)%Z then Z.max (size + st) 0 else Z.min st size in
  let ln := if is_undefined len then size else to_int size len in
  let ln' := Z.min (Z.max ln 0) (size - st') in
  String.substring (Z.to_nat st') (Z.to_nat ln') s.

Definition logic_substr (source start end_ : jsval) : string :=
  let s := to_str source in
  if num_ltb (to_number end_) (NFin (inject_Z 0)) then
    let temp := js_substr s start VUndef in
    js_substr temp (jint 0)
              (VNum (num_add (NFin (inject_Z (Z.of_nat (String.length temp))))
                             (to_number end_)))
  else js_substr s start end_.

Definition is_missing (data key : jsval) : bool :=
  match lookup_var key VUndef data with
  | VUndef | VNull | VStr "" => true
  | _ => false
  end.

Definition flatten_args (vals : list jsval) : list jsval :=
  flat_map (fun v => match v with VArr l => l | _ => [v] end) vals.

Definition missing_keys (data : jsval) (vals : list jsval) : list jsval :=
  filter (is_missing data)
         (match vals with
          | VArr l :: _ => l
          | _ => vals
          end).

(** The built-in operators that take evaluated operands; [None] when the
    name is not a built-in. *)
Definition builtin (op : string) (vals : list jsval) (data : jsval)
  : option jsval :=
  let a := arg 0 vals in
  let b := arg 1 vals in
  let c := arg 2 vals in
  if op =? "var" then Some (lookup_var a b data)
  else if op =? "missing" then Some (VArr (missing_keys data vals))
  else if op =? "missing_some" then
    let wanted := match b with VArr l => l | _ => [] end in
    let miss := filter (is_missing data) wanted in
    Some (if num_leb (to_number a)
                     (NFin (inject_Z (Z.of_nat (length wanted - length miss))))
          then VArr [] else VArr miss)
  else if op =? "==" then Some (VBool (loose_eqb a b))
  else if op =? "===" then Some (VBool (strict_eqb a b))
  else if op =? "!=" then Some (VBool (negb (loose_eqb a b)))
  else if op =? "!==" then Some (VBool (negb (strict_eqb a b)))
  else if op =? ">" then Some (VBool (js_ltb b a))
  else if op =? ">=" then Some (VBool (js_leb b a))
  else if op =? "<" then
    Some (VBool (js_ltb a b && (is_undefined c || js_ltb b c)))
  else if op =? "<=" then
    Some (VBool (js_leb a b && (is_undefined c || js_leb b c)))
  else if op =? "!" then Some (VBool (negb (logic_truthy a)))
  else if op =? "!!" then Some (VBool (logic_truthy a))
  else if op =? "+" then
    Some (VNum (fold_left (fun acc v => num_add acc (to_number v)) vals
                          (NFin (inject_Z 0))))
  else if op =? "*" then
    Some (VNum (fold_left (fun acc v => num_mul acc (to_number v)) vals
                          (NFin (inject_Z 1))))
  else if op =? "-" then
    Some (VNum (if is_undefined b then num_neg (to_number a)
                else num_sub (to_number a) (to_number b)))
  else if op =? "/" then Some (VNum (num_div (to_number a) (to_number b)))
  else if op =? "%" then Some (VNum (num_mod (to_number a) (to_number b)))
  else if op =? "min" then
    Some (VNum (fold_left (fun acc v =>
                             let n := to_number v in
                             match acc, n with
                             | NNaN, _ | _, NNaN => NNaN
                             | _, _ => if num_leb n acc then n else acc
                             end) vals NPosInf))
  else if op =? "max" then
    Some (VNum (fold_left (fun acc v =>
                             let n := to_number v in
                             match acc, n with
                             | NNaN, _ | _, NNaN => NNaN
                             | _, _ => if num_leb acc n then n else acc
                             end) vals NNegInf))
  else if op =? "abs" then Some (VNum (num_abs (to_number a)))
  else if op =? "round" then Some (VNum (num_round (to_number a)))
  else if op =? "floor" then Some (VNum (num_floor (to_number a)))
  else if op =? "ceil" then Some (VNum (num_ceil (to_number a)))
  else if (op =? "cat") || (op =? "concat") then
    Some (VStr (String.concat "" (map to_str vals)))
  else if op =? "substr" then Some (VStr (logic_substr a b c))
  else if op =? "in" then
    Some (VBool match b with
                | VArr l => existsb (strict_eqb a) l
                | VStr s => match a with
                            | VStr x => is_infix x s
                            | _ => is_infix (to_str a) s
                            end
                | _ => false
                end)
  else if op =? "merge" then Some (VArr (flatten_args vals))
  else if op =? "log" then Some a
  else None.

(** The operators that decide themselves which operands to evaluate. *)
Definition is_lazy (op : string) : bool :=
  existsb (String.eqb op)
          ["if"; "?:"; "and"; "or"; "map"; "filter"; "all"; "some"; "none";
           "reduce"].

Definition is_builtin (op : string) : bool :=
  is_lazy op
  || match builtin op [] VUndef with Some _ => true | None => false end.

(** Apply an operator to evaluated operands: built-ins first, then the
    caller's table, else [UnknownOperator]. *)
Definition apply_operator (op : string) (vals : list jsval) (data : jsval)
  : outcome jsval :=
  match builtin op vals data with
  | Some r => Ok r
  | None =>
      match customJsonLogicOps env op with
      | Some fn => Ok (fn vals)
      | None => Throw (UnknownOperator op)
      end
  end.

Section Lazy.

(** [ev e d] evaluates the operand [e] against the context [d]. *)
Variable ev : jsval -> jsval -> outcome jsval.

Fixpoint eval_if (args : list jsval) (data : jsval) : outcome jsval :=
  match args with
  | [] => Ok VNull
  | [e] => ev e data
  | c :: t :: rest =>
      cv <- ev c data ;;
      if logic_truthy cv then ev t data else eval_if rest data
  end.

Fixpoint eval_and (args : list jsval) (data last : jsval) : outcome jsval :=
  match args with
  | [] => Ok last
  | e :: rest =>
      v <- ev e data ;;
      if logic_truthy v then eval_and rest data v else Ok v
  end.

Fixpoint eval_or (args : list jsval) (data last : jsval) : outcome jsval :=
  match args with
  | [] => Ok last
  | e :: rest =>
      v <- ev e data ;;
      if logic_truthy v then Ok v else eval_or rest data v
  end.

(** The elements of [items] on which [e] is truthy. *)
Fixpoint eval_filter (e : jsval) (items : list jsval) : outcome (list jsval) :=
  match items with
  | [] => Ok []
  | x :: rest =>
      v <- ev e x ;;
      keep <- eval_filter e rest ;;
      Ok (if logic_truthy v then x :: keep else keep)
  end.

Fixpoint eval_reduce (e : jsval) (items : list jsval) (acc : jsval)
  : outcome jsval :=
  match items with
  | [] => Ok acc
  | x :: rest =>
      acc' <- ev e (VObj [("current", x); ("accumulator", acc)]) ;;
      eval_reduce e rest acc'
  end.

Definition eval_lazy (op : string) (args : list jsval) (data : jsval)
  : outcome jsval :=
  if (op =? "if") || (op =? "?:") then eval_if args data
  else if op =? "and" then eval_and args data VUndef
  else if op =? "or" then eval_or args data VUndef
  else if op =? "reduce" then
    init <- ev (arg 2 args) data ;;
    arr <- ev (arg 0 args) data ;;
    match arr with
    | VArr items => eval_reduce (arg 1 args) items init
    | _ => Ok init
    end
  else
    arr <- ev (arg 0 args) data ;;
    let items := match arr with VArr items => items | _ => [] end in
    if op =? "map" then
      vs <- mapM (fun x => ev (arg 1 args) x) items ;; Ok (VArr vs)
    else
      keep <- eval_filter (arg 1 args) items ;;
      if op =? "filter" then Ok (VArr keep)
      else if op =? "all" then
        Ok (VBool (negb (Nat.eqb (length items) 0)
                   && Nat.eqb (length keep) (length items)))
      else if op =? "some" then Ok (VBool (negb (Nat.eqb (length keep) 0)))
      else Ok (VBool (Nat.eqb (length keep) 0)).

End Lazy.

(** [evaluate(expr, context, customOps)], with the nesting budget [fuel]. *)
Fixpoint evaluate_fuel (fuel : nat) (expr data : jsval) : outcome jsval :=
  match fuel with
  | O => OutOfFuel
  | S f =>
      match expr with
      | VArr items =>
          vs <- mapM (fun e => evaluate_fuel f e data) items ;; Ok (VArr vs)
      | VObj [(op, raw)] =>
          let args := match raw with VArr l => l | _ => [raw] end in
          if is_lazy op then eval_lazy (evaluate_fuel f) op args data
          else
            vals <- mapM (fun e => evaluate_fuel f e data) args ;;
            apply_operator op vals data
      | _ => Ok expr
      end
  end.

Definition evaluate (expr data : jsval) : outcome jsval :=
  evaluate_fuel (S (depth expr)) expr data.

End Interpreter.

(* ===================================================================== *)
(** * 5. Schema validator                                                 *)
(* ===================================================================== *)

(** A path segment: a keyword marker or property name, or an index. *)
Inductive segment : Type :=
| SKey (s : string)
| SIdx (n : nat).

(** [ValidationError]: keyword, schema-shaped path, message, params. *)
Record ValidationError : Type := mkValidationError {
  keyword : string;
  path : list segment;
  message : string;
  params : jsval
}.

Definition is_nil {A : Type} (l : list A) : bool :=
  match l with [] => true | _ => false end.

(** The error set of the first branch with the fewest errors. *)
Fixpoint fewest {A : Type} (ls : list (list A)) : list A :=
  match ls with
  | [] => []
  | [l] => l
  | l :: rest =>
      let m := fewest rest in
      if Nat.leb (length l) (length m) then l else m
  end.

(** Modelled from the spec: the validator ([src/validation/*.ts]) is not
    part of the sources at hand.  The definitions follow section 4.3 of
    the specification, the keyword reference of the schema guide and the
    error keywords listed there: dispatch on the declared [type], which a
    mismatch ends at once; then every keyword of the node in declaration
    order, all errors collected; [allOf] the union of the branch errors,
    [anyOf] the smallest branch error set when every branch fails, [oneOf]
    a single error unless exactly one branch matches, [not] an error when
    the sub-schema validates; named rules evaluated against the whole
    form's values.  An error path names the property below an object
    (the [instancePath] of the schema guide), [items] / index below an
    array, and [allOf] | [anyOf] | [oneOf] / branch below a composition. *)

Section Validator.

Variable env : Env.

(** [JsonLogicContext] of [src/types.ts]: the rule definitions of the root
    schema, and the values of the whole form. *)
Variable rules : jsval.
Variable root : jsval.

Definition is_absent (v : jsval) : bool :=
  match v with
  | VUndef => true
  | VNull => treatNullAsUndefined env
  | _ => false
  end.

Definition error_message (schema : jsval) (kw : string) : string :=
  match getProp (getProp schema "x-jsf-errorMessage") kw with
  | VStr m => m
  | _ => default_message env kw
  end.

Definition mkErr (schema : jsval) (kw : string) (p : list segment)
           (prm : jsval) : ValidationError :=
  mkValidationError kw p (error_message schema kw) prm.

Definition type_name_matches (t v : jsval) : bool :=
  match t with
  | VStr name =>
      match v with
      | VStr _ => name =? "string"
      | VNum _ => (name =? "number") || ((name =? "integer") && isInteger v)
      | VBool _ => name =? "boolean"
      | VNull => name =? "null"
      | VArr _ => name =? "array"
      | VObj _ => name =? "object"
      | _ => false
      end
  | _ => false
  end.

(** The declared [type]; an array of names is a union. *)
Definition type_ok (schema v : jsval) : bool :=
  match getProp schema "type" with
  | VUndef => true
  | VArr ts => existsb (fun t => type_name_matches t v) ts
  | t => type_name_matches t v
  end.

Fixpoint has_duplicates (l : list jsval) : bool :=
  match l with
  | [] => false
  | x :: rest => existsb (deep_eqb x) rest || has_duplicates rest
  end.

Definition nat_num (n : nat) : jsnum := NFin (inject_Z (Z.of_nat n)).

(** One named rule of [x-jsf-logic-validations]. *)
Definition validate_rule (schema ref : jsval) (p : list segment)
  : outcome (list ValidationError) :=
  match ref with
  | VStr name =>
      match getProp (getProp rules "validations") name with
      | VObj def =>
          r <- evaluate env (getProp (VObj def) "rule") root ;;
          Ok (if logic_truthy r then []
              else [mkValidationError "json-logic" p
                      match getProp (VObj def) "errorMessage" with
                      | VStr m => m
                      | _ => error_message schema "json-logic"
                      end
                      ref])
      | _ => Throw (MalformedRuleReference name)
      end
  | _ => Throw (MalformedRuleReference (render_value env ref))
  end.

Section Keywords.

(** [rec s v p] validates [v] against the sub-schema [s] at path [p]. *)
Variable rec : jsval -> jsval -> list segment -> outcome (list ValidationError).

Definition branch_results (kw : string) (branches : list jsval) (v : jsval)
           (p : list segment) : outcome (list (list ValidationError)) :=
  mapMi (fun i s => rec s v (p ++ [SKey kw; SIdx i])) 0 branches.

(** Paths are in schema-tree addressing: a property is reached through
    the [properties] marker, an array element through the [items] marker,
    a branch of a composition through its keyword and index. *)
Definition prop_path (p : list segment) (name : string) : list segment :=
  p ++ [SKey "properties"; SKey name].

Definition item_path (p : list segment) (i : nat) : list segment :=
  p ++ [SKey "items"; SIdx i].

(** The keyword [kw] of [schema], with argument [a], against [v]. *)
Definition validate_keyword (schema : jsval) (kw : string) (a v : jsval)
           (p : list segment) : outcome (list ValidationError) :=
  let fail := Ok [mkErr schema kw p a] in
  let pass := Ok [] in
  if kw =? "const" then (if deep_eqb v a then pass else fail)
  else if kw =? "enum" then
    match a with
    | VArr l => if existsb (deep_eqb v) l then pass else fail
    | _ => pass
    end
  (* string family *)
  else if kw =? "minLength" then
    match v, a with
    | VStr s, VNum n =>
        if num_ltb (nat_num (grapheme_count env s)) n then fail else pass
    | _, _ => pass
    end
  else if kw =? "maxLength" then
    match v, a with
    | VStr s, VNum n =>
        if num_ltb n (nat_num (grapheme_count env s)) then fail else pass
    | _, _ => pass
    end
  else if kw =? "pattern" then
    match v, a with
    | VStr s, VStr pat => if regex_test env pat s then pass else fail
    | _, _ => pass
    end
  else if kw =? "format" then
    match v, a with
    | VStr s, VStr f => if format_valid env f s then pass else fail
    | _, _ => pass
    end
  (* number family *)
  else if kw =? "minimum" then
    match v, a with
    | VNum x, VNum m => if num_ltb x m then fail else pass
    | _, _ => pass
    end
  else if kw =? "maximum" then
    match v, a with
    | VNum x, VNum m => if num_ltb m x then fail else pass
    | _, _ => pass
    end
  else if kw =? "exclusiveMinimum" then
    match v, a with
    | VNum x, VNum m => if num_leb x m then fail else pass
    | _, _ => pass
    end
  else if kw =? "exclusiveMaximum" then
    match v, a with
    | VNum x, VNum m => if num_leb m x then fail else pass
    | _, _ => pass
    end
  else if kw =? "multipleOf" then
    match v, a with
    | VNum x, VNum m => if num_is_zero (num_mod x m) then pass else fail
    | _, _ => pass
    end
  (* object family *)
  else if kw =? "required" then
    match v, a with
    | VObj _, VArr names =>
        Ok (flat_map
              (fun n =>
                 match n with
                 | VStr name =>
                     if is_absent (getProp v name)
                     then [mkErr (getProp (getProp schema "properties") name)
                                 kw (prop_path p name) n]
                     else []
                 | _ => []
                 end) names)
    | _, _ => pass
    end
  else if kw =? "properties" then
    match v, a with
    | VObj _, VObj props =>
        concatM (fun kv =>
                   let pv := getProp v (fst kv) in
                   if is_absent pv then Ok []
                   else rec (snd kv) pv (prop_path p (fst kv))) props
    | _, _ => pass
    end
  else if kw =? "patternProperties" then
    match v, a with
    | VObj entries, VObj pats =>
        concatM (fun pat =>
                   concatM (fun kv =>
                              if regex_test env (fst pat) (fst kv)
                              then rec (snd pat) (snd kv) (prop_path p (fst kv))
                              else Ok []) entries) pats
    | _, _ => pass
    end
  else if kw =? "additionalProperties" then
    match v with
    | VObj entries =>
        concatM (fun kv =>
                   if hasOwn (getProp schema "properties") (fst kv)
                      || existsb (fun pat => regex_test env pat (fst kv))
                           (keys (own_entries
                                    (getProp schema "patternProperties")))
                   then Ok []
                   else match a with
                        | VBool false =>
                            Ok [mkErr schema kw (prop_path p (fst kv)) a]
                        | _ => rec a (snd kv) (prop_path p (fst kv))
                        end) entries
    | _ => pass
    end
  (* array family *)
  else if kw =? "prefixItems" then
    match v, a with
    | VArr elems, VArr schemas =>
        concatMi (fun i s =>
                    match nth_error elems i with
                    | Some x => rec s x (item_path p i)
                    | None => Ok []
                    end) schemas
    | _, _ => pass
    end
  else if kw =? "items" then
    match v with
    | VArr elems =>
        let skip := match getProp schema "prefixItems" with
                    | VArr l => length l
                    | _ => 0
                    end in
        concatMi (fun i x =>
                    if Nat.ltb i skip then Ok []
                    else rec a x (item_path p i)) elems
    | _ => pass
    end
  else if kw =? "minItems" then
    match v, a with
    | VArr elems, VNum n =>
        if num_ltb (nat_num (length elems)) n then fail else pass
    | _, _ => pass
    end
  else if kw =? "maxItems" then
    match v, a with
    | VArr elems, VNum n =>
        if num_ltb n (nat_num (length elems)) then fail else pass
    | _, _ => pass
    end
  else if kw =? "uniqueItems" then
    match v, a with
    | VArr elems, VBool true => if has_duplicates elems then fail else pass
    | _, _ => pass
    end
  else if kw =? "contains" then
    match v with
    | VArr elems =>
        rs <- mapMi (fun i x => rec a x (item_path p i)) 0 elems ;;
        let hits := nat_num (length (filter is_nil rs)) in
        let low := getProp schema "minContains" in
        let high := getProp schema "maxContains" in
        Ok ((match low with
             | VNum n =>
                 if num_ltb hits n then [mkErr schema "minContains" p low]
                 else []
             | _ =>
                 if num_ltb hits (NFin (inject_Z 1)) then [mkErr schema kw p a]
                 else []
             end)
            ++ (match high with
                | VNum n =>
                    if num_ltb n hits then [mkErr schema "maxContains" p high]
                    else []
                | _ => []
                end))
    | _ => pass
    end
  (* composition *)
  else if kw =? "allOf" then
    match a with
    | VArr branches =>
        rs <- branch_results kw branches v p ;; Ok (concat rs)
    | _ => pass
    end
  else if kw =? "anyOf" then
    match a with
    | VArr branches =>
        rs <- branch_results kw branches v p ;;
        Ok (if existsb is_nil rs then [] else fewest rs)
    | _ => pass
    end
  else if kw =? "oneOf" then
    match a with
    | VArr branches =>
        rs <- branch_results kw branches v p ;;
        if Nat.eqb (length (filter is_nil rs)) 1 then pass else fail
    | _ => pass
    end
  else if kw =? "not" then
    es <- rec a v (p ++ [SKey "not"]) ;;
    (if is_nil es then fail else pass)
  (* named rules *)
  else if kw =? "x-jsf-logic-validations" then
    match a with
    | VArr refs => concatM (fun ref => validate_rule schema ref p) refs
    | _ => pass
    end
  else pass.

End Keywords.

(** [validate(schema, value, path)], with the nesting budget [fuel]. *)
Fixpoint validate_fuel (fuel : nat) (schema value : jsval) (p : list segment)
  : outcome (list ValidationError) :=
  match fuel with
  | O => OutOfFuel
  | S f =>
      match schema with
      | VBool false =>
          Ok (if allowForbiddenValues env then []
              else [mkErr schema "forbidden" p VUndef])
      | VObj entries =>
          if negb (type_ok schema value)
          then Ok [mkErr schema "type" p (getProp schema "type")]
          else concatM (fun kv =>
                          validate_keyword (validate_fuel f) schema
                                           (fst kv) (snd kv) value p) entries
      | _ => Ok []
      end
  end.

Definition validate (schema value : jsval) (p : list segment)
  : outcome (list ValidationError) :=
  validate_fuel (S (depth schema)) schema value p.

(** Silent mode: only pass or fail is observed. *)
Definition validates (schema value : jsval) : outcome bool :=
  es <- validate schema value [] ;; Ok (is_nil es).

End Validator.

(* ===================================================================== *)
(** * 6. Conditional schema resolver                                      *)
(* ===================================================================== *)

(** Modelled from the spec: the resolver ([calculateFinalSchema] of
    [src/mutations.ts]) is not part of the sources at hand.  The
    definitions follow section 4.2 of the specification and the
    [x-jsf-logic] reference of the schema guide. *)

(** Step 3, merge semantics: the keywords of the branch [b] are
    shallow-merged onto the node [n]; nested [properties] are merged key by
    key, recursively, the branch winning per key.  A branch that is not an
    object has no keywords to merge. *)
Fixpoint merge (n b : jsval) {struct b} : jsval :=
  match b with
  | VObj bs =>
      match n with
      | VObj ns =>
          VObj
            ((fix go (bs acc : list (string * jsval)) : list (string * jsval) :=
                match bs with
                | [] => acc
                | (k, bv) :: rest =>
                    go rest
                       (set_key k
                          (if k =? "properties" then
                             match bv, assoc k acc with
                             | VObj bprops, Some (VObj nprops) =>
                                 VObj
                                   ((fix goP (bprops accP : list (string * jsval))
                                       : list (string * jsval) :=
                                       match bprops with
                                       | [] => accP
                                       | (pk, pb) :: restP =>
                                           goP restP
                                               (set_key pk
                                                  match assoc pk accP with
                                                  | Some pn => merge pn pb
                                                  | None => pb
                                                  end accP)
                                       end) bprops nprops)
                             | _, _ => bv
                             end
                           else bv) acc)
                end) bs ns)
      | _ => b
      end
  | _ => n
  end.

(** The keys that hold child schemas or rule definitions: computed
    attributes address the remaining, presentation and attribute, keys. *)
Definition structural_keys : list string :=
  ["properties"; "patternProperties"; "additionalProperties"; "items";
   "prefixItems"; "contains"; "allOf"; "anyOf"; "oneOf"; "not"; "if"; "then";
   "else"; "x-jsf-logic"; "x-jsf-logic-validations";
   "x-jsf-logic-computedAttrs"].

Definition is_structural (k : string) : bool :=
  existsb (String.eqb k) structural_keys.

Section Resolver.

Variable env : Env.
Variable rules : jsval.                    (* root rule definitions *)
Variable root : jsval.                     (* values of the whole form *)
Variable computed : list (string * jsval). (* computed values, by name *)

(** Textual substitution of every [{{name}}] pattern. *)
Definition substitute (template : string) : string :=
  fold_left (fun s nv =>
               replace_all ("{{" ++ fst nv ++ "}}") (to_str env (snd nv)) s)
            computed template.

(** Step 4, one computed attribute: an exact reference is replaced by the
    computed value, any other string is a template, an object addresses
    the members of the current attribute one by one. *)
Fixpoint compute_attr (template current : jsval) : jsval :=
  match template with
  | VStr t =>
      match assoc t computed with
      | Some v => v
      | None => VStr (substitute t)
      end
  | VObj members =>
      VObj
        ((fix go (members acc : list (string * jsval)) : list (string * jsval) :=
            match members with
            | [] => acc
            | (k, t) :: rest =>
                go rest
                   (set_key k
                      (compute_attr t (match assoc k acc with
                                       | Some cur => cur
                                       | None => VUndef
                                       end)) acc)
            end) members
                 (match current with VObj cur => cur | _ => [] end))
  | other => other
  end.

Definition apply_computed (node : jsval) : jsval :=
  match node, getProp node "x-jsf-logic-computedAttrs" with
  | VObj entries, VObj attrs =>
      VObj (fold_left
              (fun acc kt =>
                 if is_structural (fst kt) then acc
                 else set_key (fst kt)
                        (compute_attr (snd kt)
                           (match assoc (fst kt) acc with
                            | Some cur => cur
                            | None => VUndef
                            end)) acc)
              attrs entries)
  | _, _ => node
  end.

Section Children.

(** [rec s c] resolves the child schema [s] against the sub-context [c]. *)
Variable rec : jsval -> jsval -> outcome jsval.

(** Step 5, one keyword of the node. *)
Definition resolve_child (ctx : jsval) (kv : string * jsval)
  : outcome (string * jsval) :=
  let k := fst kv in
  let v := snd kv in
  if k =? "properties" then
    match v with
    | VObj props =>
        ps <- mapM (fun nv => r <- rec (snd nv) (getProp ctx (fst nv)) ;;
                              Ok (fst nv, r)) props ;;
        Ok (k, VObj ps)
    | _ => Ok kv
    end
  else if k =? "prefixItems" then
    match v with
    | VArr l =>
        rs <- mapMi (fun i s => rec s (getProp ctx (nat_to_string i))) 0 l ;;
        Ok (k, VArr rs)
    | _ => Ok kv
    end
  else if (k =? "allOf") || (k =? "anyOf") || (k =? "oneOf") then
    match v with
    | VArr l => rs <- mapM (fun s => rec s ctx) l ;; Ok (k, VArr rs)
    | _ => Ok kv
    end
  else if (k =? "items") || (k =? "not") then
    r <- rec v ctx ;; Ok (k, r)
  else Ok kv.

Definition resolve_children (node ctx : jsval) : outcome jsval :=
  match node with
  | VObj entries => es <- mapM (resolve_child ctx) entries ;; Ok (VObj es)
  | _ => Ok node
  end.

End Children.

Definition branch_key (pass : bool) : string :=
  if pass then "then" else "else".

(** Step 1: the standard [if] / [then] / [else]. *)
Definition resolve_standard (node ctx : jsval) : outcome jsval :=
  match getProp node "if" with
  | VUndef => Ok node
  | cond =>
      pass <- validates env rules root cond ctx ;;
      Ok (merge node (getProp node (branch_key pass)))
  end.

(** Step 2: the rule-keyed conditional of [x-jsf-logic]. *)
Definition resolve_rule_keyed (node ctx : jsval) : outcome jsval :=
  let logic := getProp node "x-jsf-logic" in
  match getProp logic "if" with
  | VUndef => Ok node
  | rule =>
      r <- evaluate env rule ctx ;;
      Ok (merge node (getProp logic (branch_key (logic_truthy r))))
  end.

(** [resolve(schema, context)], with the nesting budget [fuel]: standard
    conditional first, rule-keyed second, computed attributes, children. *)
Fixpoint resolve_fuel (fuel : nat) (schema ctx : jsval) : outcome jsval :=
  match fuel with
  | O => OutOfFuel
  | S f =>
      match schema with
      | VObj _ =>
          n1 <- resolve_standard schema ctx ;;
          n2 <- resolve_rule_keyed n1 ctx ;;
          resolve_children (resolve_fuel f) (apply_computed n2) ctx
      | _ => Ok schema
      end
  end.

End Resolver.

(** Every named computed value, evaluated once against the form values. *)
Definition computed_values (env : Env) (schema values : jsval)
  : outcome (list (string * jsval)) :=
  match getProp (getProp schema "x-jsf-logic") "computedValues" with
  | VObj defs =>
      mapM (fun nd => v <- evaluate env (getProp (snd nd) "rule") values ;;
                      Ok (fst nd, v)) defs
  | _ => Ok []
  end.

(** [resolve(schema, values)] on a root schema. *)
Definition resolve (env : Env) (schema values : jsval) : outcome jsval :=
  cv <- computed_values env schema values ;;
  resolve_fuel env (getProp schema "x-jsf-logic") values cv
               (S (depth schema)) schema values.

(* ===================================================================== *)
(** * 7. Field tree builder                                               *)
(* ===================================================================== *)

(** Modelled from the spec: the builder ([buildFieldSchema] of
    [src/field/schema.ts]) is not part of the sources at hand.  The
    definitions follow section 4.4 of the specification, the inference
    table of the schema guide, the [Field] interface of
    [src/field/type.ts] and the async-options tests. *)

Section Builder.

Variable env : Env.
Variable rootLayout : jsval.

















End Builder.


(* ===================================================================== *)
(** * 8. Error path reconciler                                            *)
(* ===================================================================== *)

(** [FormErrors] of [dist/index.d.ts]: per key a message, the errors of a
    nested object, or the index-aligned errors of a group array. *)
Unset Elimination Schemes.
Inductive FormErrors : Type :=
| FE (entries : list (string * FormEntry))
with FormEntry : Type :=
| FLeaf (msg : string)
| FNested (fe : FormErrors)
| FList (l : list (option FormErrors)).
Set Elimination Schemes.

Definition composition_keywords : list string := ["allOf"; "anyOf"; "oneOf"].
Definition conditional_keywords : list string := ["then"; "else"].

(** Modelled from the spec: the path transformation ([transformErrorPath]
    of [src/form.ts]) is not part of the sources at hand.  The definition
    follows section 4.5 of the specification read with the two worked
    paths of section 8 and the shape invariant of section 3: the path is
    rewritten from schema-tree addressing to field-tree addressing.  A
    composition keyword goes with the branch index after it, a
    conditional keyword goes, the [items] marker before an index goes and
    the index stays, the [properties] marker goes and the property name
    after it stays, whatever it is called. *)
Fixpoint reconcile_path (p : list segment) : list segment :=
  match p with
  | [] => []
  | SIdx i :: rest => SIdx i :: reconcile_path rest
  | SKey k :: rest =>
      if existsb (String.eqb k) composition_keywords then
        match rest with
        | SIdx _ :: rest' => reconcile_path rest'
        | _ => reconcile_path rest
        end
      else if existsb (String.eqb k) conditional_keywords then
        reconcile_path rest
      else if k =? "items" then
        match rest with
        | SIdx i :: rest' => SIdx i :: reconcile_path rest'
        | _ => SKey k :: reconcile_path rest
        end
      else if k =? "properties" then
        match rest with
        | name :: rest' => name :: reconcile_path rest'
        | [] => []
        end
      else SKey k :: reconcile_path rest
  end.

Definition segment_key (s : segment) : string :=
  match s with
  | SKey k => k
  | SIdx i => nat_to_string i
  end.

Definition fe_entries (fe : FormErrors) : list (string * FormEntry) :=
  match fe with FE es => es end.

(** Put [x] at position [i], padding with [None]. *)
Fixpoint list_put {A : Type} (i : nat) (x : A) (l : list (option A))
  : list (option A) :=
  match i, l with
  | O, [] => [Some x]
  | O, _ :: rest => Some x :: rest
  | S i', [] => None :: list_put i' x []
  | S i', y :: rest => y :: list_put i' x rest
  end.

(** Record [msg] at the reconciled path [p]; a location that already holds
    something keeps it (first match wins). *)
Fixpoint insert_error (p : list segment) (msg : string) (fe : FormErrors)
  : FormErrors :=
  let es := fe_entries fe in
  match p with
  | [] => if has_key "" es then fe else FE (set_key "" (FLeaf msg) es)
  | seg :: rest =>
      let k := segment_key seg in
      match rest with
      | [] => if has_key k es then fe else FE (set_key k (FLeaf msg) es)
      | SIdx i :: rest' =>
          match assoc k es with
          | None =>
              FE (set_key k
                    (FList (list_put i (insert_error rest' msg (FE [])) [])) es)
          | Some (FList l) =>
              FE (set_key k
                    (FList (list_put i
                              (insert_error rest' msg
                                 match nth i l None with
                                 | Some sub => sub
                                 | None => FE []
                                 end) l)) es)
          | Some _ => fe
          end
      | SKey _ :: _ =>
          match assoc k es with
          | None => FE (set_key k (FNested (insert_error rest msg (FE []))) es)
          | Some (FNested sub) =>
              FE (set_key k (FNested (insert_error rest msg sub)) es)
          | Some _ => fe
          end
      end
  end.

(** [reconcile(errors)]: [None] stands for an absent [formErrors]. *)
Definition reconcile (errors : list ValidationError) : option FormErrors :=
  match errors with
  | [] => None
  | _ =>
      Some (fold_left
              (fun fe e => insert_error (reconcile_path (path e)) (message e) fe)
              errors (FE []))
  end.

(* ===================================================================== *)
(** * 9. Pipeline orchestrator                                            *)
(* ===================================================================== *)

(** Modelled from the spec: [createHeadlessForm] of [src/form.ts] is not
    part of the sources at hand; its result type [FormResult] is declared
    in [dist/index.d.ts].  The definitions follow sections 2 and 6 of the
    specification: resolve, then validate, and resolve, then build, both
    on the same resolved schema for one snapshot of the values. *)

(** [ValidationResult]: [{ formErrors? }] *)
Record ValidationResult : Type := mkValidationResult {
  formErrors : option FormErrors
}.

Definition validate_resolved (env : Env) (resolved values : jsval)
  : outcome (list ValidationError) :=
  validate env (getProp resolved "x-jsf-logic") values resolved values [].

(** [handleValidation(values)] of the form created from [schema]. *)
Definition handleValidation (env : Env) (schema values : jsval)
  : outcome ValidationResult :=
  resolved <- resolve env schema values ;;
  errors <- validate_resolved env resolved values ;;
  Ok (mkValidationResult (reconcile errors)).

(* ===================================================================== *)
(** * 10. The worked examples of the specification                        *)
(* ===================================================================== *)

(** [{ oneOf: [{ const: "a" }, { const: "b" }] }] *)
Definition oneOf_example : jsval :=
  VObj [("oneOf", VArr [VObj [("const", VStr "a")];
                        VObj [("const", VStr "b")]])].



(** The two raw validator paths of the error path examples. *)
Definition raw_path_zip : list segment :=
  [SKey "properties"; SKey "address"; SKey "allOf"; SIdx 0;
   SKey "properties"; SKey "zip"].

Definition raw_path_email : list segment :=
  [SKey "properties"; SKey "items"; SKey "items"; SIdx 2;
   SKey "properties"; SKey "email"].

(** A form whose [address] constrains [zip] inside an [allOf] branch, and
    a form whose array [items] constrains [email] in every element. *)
Definition address_form : jsval :=
  VObj [("type", VStr "object");
        ("properties",
         VObj [("address",
                VObj [("allOf",
                       VArr [VObj [("properties",
                                    VObj [("zip",
                                           VObj [("type", VStr "string")])])]])])])].

Definition items_form : jsval :=
  VObj [("type", VStr "object");
        ("properties",
         VObj [("items",
                VObj [("type", VStr "array");
                      ("items",
                       VObj [("properties",
                              VObj [("email",
                                     VObj [("type", VStr "string")])])])])])].


(** The environment of the examples: one registered loader, the given
    operator table, no legacy option. *)
Definition plain_env (ops : string -> option (list jsval -> jsval)) : Env :=
  mkEnv ops [("countries-loader", 0)] false false false
        (fun _ => NNaN) (fun _ => "") (fun _ _ => true) (fun _ _ => true)
        String.length (fun kw => kw).

Definition ops_first_a (name : string) : option (list jsval -> jsval) :=
  if name =? "first" then Some (fun args => arg 0 args) else None.

(* ===================================================================== *)
(** * 11. Vocabulary of the statements                                    *)
(* ===================================================================== *)






(** One step down the schema tree, as the validator takes it. *)
Inductive schema_step : Type :=
| PropStep (name : string)             (* [properties], then the name *)
| ItemStep (i : nat)                   (* [items], then the index *)
| BranchStep (kw : string) (i : nat)   (* [allOf] / [anyOf] / [oneOf], index *)
| CondStep (kw : string).              (* [then] / [else] *)

Definition step_ok (st : schema_step) : bool :=
  match st with
  | BranchStep kw _ => existsb (String.eqb kw) composition_keywords
  | CondStep kw => existsb (String.eqb kw) conditional_keywords
  | _ => true
  end.

(** The segments a step adds to a path in schema-tree addressing. *)
Definition raw_step (st : schema_step) : list segment :=
  match st with
  | PropStep name => [SKey "properties"; SKey name]
  | ItemStep i => [SKey "items"; SIdx i]
  | BranchStep kw i => [SKey kw; SIdx i]
  | CondStep kw => [SKey kw]
  end.

(** The segments it adds in field-tree addressing. *)
Definition field_step (st : schema_step) : list segment :=
  match st with
  | PropStep name => [SKey name]
  | ItemStep i => [SIdx i]
  | BranchStep _ _ | CondStep _ => []
  end.

Definition raw_path (steps : list schema_step) : list segment :=
  flat_map raw_step steps.

Definition field_path (steps : list schema_step) : list segment :=
  flat_map field_step steps.


(* ===================================================================== *)
(** * 14. Grid styles of a layout ([src/utils/layout.ts])                 *)
(* ===================================================================== *)

(** [typeof v === 'number'] *)
Definition is_number (v : jsval) : bool :=
  match v with VNum _ => true | _ => false end.

Definition is_nan (n : jsnum) : bool :=
  match n with NNaN => true | _ => false end.

(** The code units of a string, each as a string of its own. *)
Definition char_values (s : string) : list jsval :=
  map (fun c => VStr (String c EmptyString)) (list_ascii_of_string s).

(** [Object.entries(v)] on a value that is neither [null] nor [undefined]:
    the own enumerable properties; a string has its code units under
    their indices, the other primitives and functions have none. *)
Definition js_entries (v : jsval) : list (string * jsval) :=
  match v with
  | VStr s => index_entries 0 (char_values s)
  | _ => own_entries v
  end.

(** [Object.values(v)] *)
Definition js_values (v : jsval) : list jsval := map snd (js_entries v).

(** [.filter(v => typeof v === 'number') as number[]] *)
Definition numbers_of (l : list jsval) : list jsnum :=
  flat_map (fun v => match v with VNum n => [n] | _ => [] end) l.

(** [Math.max(...values)]: [NaN] when some argument is, the largest
    argument otherwise, [-Infinity] without arguments. *)
Definition math_max (values : list jsnum) : jsnum :=
  if existsb is_nan values then NNaN
  else fold_left (fun hi n => if num_ltb hi n then n else hi) values NNegInf.

(** [getBaseFieldValue(value)] *)
Definition getBaseFieldValue (value : jsval) : jsval :=
  if is_number value then value
  else
    match typeof value, value with
    | TyObject, VNull => VUndef
    | TyObject, _ =>
        let values := numbers_of (js_values value) in
        match values with
        | [] => VUndef                     (* [values.length > 0] fails *)
        | _ => VNum (math_max values)
        end
    | _, _ => VUndef
    end.

(** The members every plain object inherits from [Object.prototype]. *)
Definition object_prototype_names : list string :=
  ["constructor"; "__defineGetter__"; "__defineSetter__"; "hasOwnProperty";
   "__lookupGetter__"; "__lookupSetter__"; "isPrototypeOf";
   "propertyIsEnumerable"; "toString"; "valueOf"; "toLocaleString"].

Fixpoint position_of (k : string) (l : list string) (i : nat) : option nat :=
  match l with
  | [] => None
  | x :: rest => if String.eqb k x then Some i else position_of k rest (S i)
  end.

(** [Object.prototype[k]]: a method, the prototype object itself under
    [__proto__] (it has no enumerable property), [undefined] otherwise. *)
Definition object_prototype (k : string) : jsval :=
  if String.eqb k "__proto__" then VObj []
  else match position_of k object_prototype_names 0 with
       | Some i => VFun i
       | None => VUndef
       end.

(** [obj[k]] on a plain object with the own properties [ps]. *)
Definition plain_get (ps : list (string * jsval)) (k : string) : jsval :=
  match assoc k ps with
  | Some x => x
  | None => object_prototype k
  end.

(** The default value of the [breakpoints] parameter. *)
Definition default_breakpoints : list (string * jsval) :=
  [("sm", VStr "640px"); ("md", VStr "768px"); ("lg", VStr "1024px");
   ("xl", VStr "1280px")].

(** A [breakpoints] argument: omitted, or a plain object. *)
Definition breakpoints_or_default (breakpoints : option (list (string * jsval)))
  : list (string * jsval) :=
  match breakpoints with
  | Some ps => ps
  | None => default_breakpoints
  end.

Section Css.

(** [ToString], the conversion a template literal applies to a value; the
    rendering of numbers and objects is left to the engine. *)
Variable ToString : jsval -> string.

(** [typeof v === 'number' ? v : undefined] *)
Definition number_or_undefined (v : jsval) : jsval :=
  if is_number v then v else VUndef.

(** The block "basic grid setup" of [generateCSSGridProperties]. *)
Definition grid_setup (normalized : jsval) (properties : list (string * jsval))
  : list (string * jsval) :=
  if match getProp normalized "type" with
     | VStr s => String.eqb s "columns"
     | _ => false
     end
  then
    let properties := set_key "display" (VStr "grid") properties in
    let properties :=
      set_key "gridTemplateColumns"
              (VStr ("repeat(" ++ ToString (getProp normalized "columns")
                               ++ ", 1fr)")) properties in
    if truthy (getProp normalized "gap")
    then set_key "gap" (getProp normalized "gap") properties
    else properties
  else properties.

(** The block "individual field properties". *)
Definition span_setup (layout : jsval) (properties : list (string * jsval))
  : list (string * jsval) :=
  let colSpan := getProp layout "colSpan" in
  if truthy colSpan then
    if is_number colSpan
    then set_key "gridColumn" (VStr ("span " ++ ToString colSpan)) properties
    else
      let values := numbers_of (js_values colSpan) in
      match values with
      | [] => properties
      | _ => set_key "gridColumn"
                     (VStr ("span " ++ ToString (VNum (math_max values))))
                     properties
      end
  else properties.

(** The block "handle colStart/colEnd". *)
Definition placement_setup (layout : jsval)
           (properties : list (string * jsval)) : list (string * jsval) :=
  let colStart := number_or_undefined (getProp layout "colStart") in
  let colEnd := number_or_undefined (getProp layout "colEnd") in
  if truthy colStart && truthy colEnd
  then set_key "gridColumn"
               (VStr (ToString colStart ++ " / " ++ ToString colEnd))
               properties
  else if truthy colStart
  then set_key "gridColumnStart" (VStr (ToString colStart)) properties
  else if truthy colEnd
  then set_key "gridColumnEnd" (VStr (ToString colEnd)) properties
  else properties.

(** [generateCSSGridProperties(layout)]; [None] is the [TypeError] of
    reading a property of [null] or [undefined]. *)
Definition generateCSSGridProperties (layout : jsval)
  : option (list (string * jsval)) :=
  let normalized := normalizeLayoutConfig layout in
  let properties := grid_setup normalized [] in
  match layout with
  | VUndef | VNull => None
  | _ => Some (placement_setup layout (span_setup layout properties))
  end.

(** The [Object.entries(obj).forEach(...)] loop shared by the responsive
    generators: one media query is pushed for every entry whose value is
    truthy and whose key names a breakpoint. *)
Definition push_queries (breakpoints : list (string * jsval))
           (declaration : jsval -> string) (obj : jsval)
           (mediaQueries : list string) : list string :=
  fold_left
    (fun mediaQueries entry =>
       if truthy (snd entry) && truthy (plain_get breakpoints (fst entry))
       then
         let minWidth := plain_get breakpoints (fst entry) in
         mediaQueries
           ++ [("@media (min-width: " ++ ToString minWidth ++ ") { "
                  ++ declaration (snd entry) ++ " }")%string]
       else mediaQueries)
    (js_entries obj) mediaQueries.

Definition columns_declaration (columns : jsval) : string :=
  ("grid-template-columns: repeat(" ++ ToString columns ++ ", 1fr);")%string.

(** The media queries [generateResponsiveCSS] joins. *)
Definition responsive_queries (layout : jsval)
           (breakpoints : option (list (string * jsval))) : list string :=
  push_queries (breakpoints_or_default breakpoints) columns_declaration
               (getProp layout "responsive") [].

(** [generateResponsiveCSS(layout, breakpoints)] *)
Definition generateResponsiveCSS (layout : jsval)
           (breakpoints : option (list (string * jsval))) : option string :=
  match layout with
  | VUndef | VNull => None
  | _ =>
      if negb (truthy (getProp layout "responsive")) then Some EmptyString
      else Some (String.concat (String "010" EmptyString)
                               (responsive_queries layout breakpoints))
  end.

(** [value && typeof value === 'object'] *)
Definition is_responsive_object (value : jsval) : bool :=
  truthy value && match typeof value with TyObject => true | _ => false end.

(** One of the three blocks of [generateResponsiveFieldCSS]. *)
Definition push_field_queries (breakpoints : list (string * jsval))
           (property : string) (value : jsval) (mediaQueries : list string)
  : list string :=
  if is_responsive_object value
  then push_queries breakpoints
                    (fun v => (property ++ ToString v ++ ";")%string)
                    value mediaQueries
  else mediaQueries.

(** The media queries [generateResponsiveFieldCSS] joins. *)
Definition field_queries (layout : jsval)
           (breakpoints : option (list (string * jsval))) : list string :=
  let bps := breakpoints_or_default breakpoints in
  let mediaQueries : list string := [] in
  let mediaQueries :=
    push_field_queries bps "grid-column: span " (getProp layout "colSpan")
                      mediaQueries in
  let mediaQueries :=
    push_field_queries bps "grid-column-start: " (getProp layout "colStart")
                      mediaQueries in
  push_field_queries bps "grid-column-end: " (getProp layout "colEnd")
                    mediaQueries.

(** [generateResponsiveFieldCSS(layout, breakpoints)] *)
Definition generateResponsiveFieldCSS (layout : jsval)
           (breakpoints : option (list (string * jsval))) : option string :=
  match layout with
  | VUndef | VNull => None
  | _ => Some (String.concat (String "010" EmptyString)
                             (field_queries layout breakpoints))
  end.

End Css.

(** ** Vocabulary of the layout statements *)

(** A count the validator accepts: an integer, at least 1. *)
Definition positive_integer (v : jsval) : Prop :=
  exists q z, v = VNum (NFin q) /\ Qeq q (inject_Z z) /\ (1 <= z)%Z.

Definition count_ok (v : jsval) : Prop := v = VUndef \/ positive_integer v.

(** The seven properties [isValidLayoutConfig] reads. *)
Definition layout_keys : list string :=
  ["type"; "columns"; "gap"; "responsive"; "colSpan"; "colStart"; "colEnd"].

Definition is_digit (c : ascii) : bool :=
  (48 <=? nat_of_ascii c)%nat && (nat_of_ascii c <=? 57)%nat.

(** A property name that cannot be an array index. *)
Definition is_name (k : string) : bool :=
  match k with
  | String c _ => negb (is_digit c)
  | EmptyString => true
  end.

(** The names [generateCSSGridProperties] may set. *)
Definition grid_property_names : list string :=
  ["display"; "gridTemplateColumns"; "gap"; "gridColumn"; "gridColumnStart";
   "gridColumnEnd"].

Definition css_record (r : list (string * jsval)) : Prop :=
  forall k v, In (k, v) r ->
              (exists s, v = VStr s) /\ In k grid_property_names.

(** [ToString] on the values of the examples: strings, and the decimal
    digits of a non-negative integer. *)
Definition ToString_sample (v : jsval) : string :=
  match v with
  | VNum (NFin q) => nat_to_string (Z.to_nat (Qfloor q))
  | VStr s => s
  | _ => "undefined"
  end.

(** An entry of a responsive object for which a media query is pushed. *)
Definition emitted (breakpoints : list (string * jsval))
           (entry : string * jsval) : bool :=
  truthy (snd entry) && truthy (plain_get breakpoints (fst entry)).

(** The media query pushed for an entry. *)
Definition media_query (ToString : jsval -> string)
           (breakpoints : list (string * jsval))
           (declaration : jsval -> string) (entry : string * jsval) : string :=
  ("@media (min-width: " ++ ToString (plain_get breakpoints (fst entry))
     ++ ") { " ++ declaration (snd entry) ++ " }")%string.

(** A name under which the default breakpoints read a truthy value: one
    of the four breakpoints, or a member inherited from
    [Object.prototype]. *)
Definition known_breakpoint (k : string) : bool :=
  existsb (String.eqb k) responsiveKeys
  || existsb (String.eqb k) object_prototype_names
  || String.eqb k "__proto__".

(** The media queries of one responsive field property. *)
Definition property_queries (ToString : jsval -> string)
           (breakpoints : list (string * jsval)) (property : string)
           (value : jsval) : list string :=
  if is_responsive_object value
  then map (media_query ToString breakpoints
                        (fun v => (property ++ ToString v ++ ";")%string))
           (filter (emitted breakpoints) (js_entries value))
  else [].

(* ===================================================================== *)
(** * Part II. Statements                                                 *)
(* ===================================================================== *)

(** ** Property tables *)

Lemma assoc_set_key (A : Type) (k k' : string) (v : A) (l : list (string * A)) :
  assoc k (set_key k' v l) = if String.eqb k k' then Some v else assoc k l.
Proof.
  induction l as [|[k0 v0] l IH]; simpl.
  - destruct (String.eqb k k'); reflexivity.
  - destruct (String.eqb k' k0) eqn:E0; simpl.
    + apply String.eqb_eq in E0; subst k0.
      destruct (String.eqb k k'); reflexivity.
    + rewrite IH. destruct (String.eqb k k0) eqn:E1; [|reflexivity].
      apply String.eqb_eq in E1; subst k0.
      destruct (String.eqb k k') eqn:E2; [|reflexivity].
      apply String.eqb_eq in E2; subst k'.
      rewrite String.eqb_refl in E0; discriminate.
Qed.

Lemma has_key_existsb (A : Type) (k : string) (l : list (string * A)) :
  has_key k l = existsb (String.eqb k) (keys l).
Proof.
  unfold has_key. induction l as [|[k0 v0] l IH]; simpl; [reflexivity|].
  destruct (String.eqb k k0); simpl; [reflexivity|exact IH].
Qed.

Lemma assoc_fold_set (b : jsval) (k : string) (ks : list string)
      (acc : list (string * jsval)) :
  assoc k (fold_left (fun acc k => set_key k (getProp b k) acc) ks acc)
  = if existsb (String.eqb k) ks then Some (getProp b k) else assoc k acc.
Proof.
  revert acc. induction ks as [|k0 ks IH]; intros acc; simpl; [reflexivity|].
  rewrite IH, assoc_set_key.
  destruct (String.eqb k k0) eqn:E; simpl.
  - apply String.eqb_eq in E; subst k0.
    destruct (existsb (String.eqb k) ks); reflexivity.
  - reflexivity.
Qed.

Lemma getProp_spread (a b : jsval) (k : string) :
  getProp (spread a b) k = if hasOwn b k then getProp b k else getProp a k.
Proof.
  unfold spread, getProp at 1, hasOwn. simpl own_entries at 1.
  rewrite assoc_fold_set, <- has_key_existsb.
  destruct (has_key k (own_entries b)); reflexivity.
Qed.

Lemma getProp_not_own (v : jsval) (k : string) :
  hasOwn v k = false -> getProp v k = VUndef.
Proof.
  unfold hasOwn, has_key, getProp.
  destruct (assoc k (own_entries v)); [discriminate|reflexivity].
Qed.

(** ** Layout helpers *)

(** The checks of [isValidLayoutConfig] read seven properties only. *)
Definition layout_checks (ty cols gap resp cs cst ce : jsval) : bool :=
  negb (truthy ty && negb (match ty with
                           | VStr s => String.eqb s "columns"
                           | _ => false
                           end))
  && negb (bad_count cols)
  && negb (truthy gap && negb (match typeof gap with
                               | TyString => true
                               | _ => false
                               end))
  && negb (truthy resp && bad_responsive resp)
  && negb (bad_col_prop cs || bad_col_prop cst || bad_col_prop ce).

Lemma isValidLayoutConfig_checks (layout : jsval) :
  isValidLayoutConfig layout
  = match layout with
    | VObj _ | VArr _ =>
        layout_checks (getProp layout "type") (getProp layout "columns")
                      (getProp layout "gap") (getProp layout "responsive")
                      (getProp layout "colSpan") (getProp layout "colStart")
                      (getProp layout "colEnd")
    | _ => false
    end.
Proof.
  unfold isValidLayoutConfig, layout_checks, colProps.
  destruct layout as [| |b|n|s|l|ps|t]; try reflexivity.
  - destruct b; reflexivity.
  - cbn [typeof]. destruct (negb (truthy (VNum n))); reflexivity.
  - cbn [typeof]. destruct (negb (truthy (VStr s))); reflexivity.
  - cbn [truthy negb typeof existsb].
    destruct (truthy (getProp (VArr l) "type") && _); [reflexivity|].
    destruct (bad_count _); [reflexivity|].
    destruct (truthy (getProp (VArr l) "gap") && _); [reflexivity|].
    destruct (truthy (getProp (VArr l) "responsive") && _); [reflexivity|].
    cbn [negb andb]. rewrite orb_false_r, orb_assoc. reflexivity.
  - cbn [truthy negb typeof existsb].
    destruct (truthy (getProp (VObj ps) "type") && _); [reflexivity|].
    destruct (bad_count _); [reflexivity|].
    destruct (truthy (getProp (VObj ps) "gap") && _); [reflexivity|].
    destruct (truthy (getProp (VObj ps) "responsive") && _); [reflexivity|].
    cbn [negb andb]. rewrite orb_false_r, orb_assoc. reflexivity.
Qed.

Lemma isValidLayoutConfig_truthy (layout : jsval) :
  isValidLayoutConfig layout = true -> truthy layout = true.
Proof.
  rewrite isValidLayoutConfig_checks.
  destruct layout; try discriminate; reflexivity.
Qed.

Lemma normalizeLayoutConfig_cases (layout : jsval) :
  normalizeLayoutConfig layout
  = if isValidLayoutConfig layout
    then spread DEFAULT_LAYOUT_CONFIG layout
    else DEFAULT_LAYOUT_CONFIG.
Proof.
  unfold normalizeLayoutConfig.
  destruct (isValidLayoutConfig layout) eqn:V.
  - rewrite (isValidLayoutConfig_truthy _ V). reflexivity.
  - rewrite orb_true_r. reflexivity.
Qed.

Lemma spread_default_valid (layout : jsval) :
  isValidLayoutConfig layout = true ->
  isValidLayoutConfig (spread DEFAULT_LAYOUT_CONFIG layout) = true.
Proof.
  intros V.
  assert (L : layout_checks (getProp layout "type") (getProp layout "columns")
                (getProp layout "gap") (getProp layout "responsive")
                (getProp layout "colSpan") (getProp layout "colStart")
                (getProp layout "colEnd") = true).
  { rewrite isValidLayoutConfig_checks in V.
    destruct layout; try discriminate; exact V. }
  rewrite isValidLayoutConfig_checks. unfold spread at 1.
  rewrite !getProp_spread.
  assert (R : forall k, getProp DEFAULT_LAYOUT_CONFIG k = VUndef ->
                        (if hasOwn layout k then getProp layout k
                         else getProp DEFAULT_LAYOUT_CONFIG k)
                        = getProp layout k).
  { intros k Hk. destruct (hasOwn layout k) eqn:O; [reflexivity|].
    rewrite Hk, (getProp_not_own _ _ O). reflexivity. }
  rewrite (R "responsive"), (R "colSpan"), (R "colStart"), (R "colEnd")
    by reflexivity.
  unfold layout_checks in *.
  apply andb_prop in L as [L Hcol]. apply andb_prop in L as [L Hresp].
  apply andb_prop in L as [L Hgap]. apply andb_prop in L as [Hty Hcols].
  rewrite Hcol, Hresp, !andb_true_r.
  destruct (hasOwn layout "type"), (hasOwn layout "columns"),
    (hasOwn layout "gap");
    rewrite ?Hty, ?Hcols, ?Hgap; reflexivity.
Qed.

(** C9 (as amended): [normalizeLayoutConfig] always returns a configuration
    accepted by [isValidLayoutConfig]; it returns [DEFAULT_LAYOUT_CONFIG]
    itself when the input is [undefined] or rejected, and otherwise the
    input spread over the defaults, property by property.  Each of [type],
    [columns] and [gap] is therefore defined in the result unless the
    accepted input carries that key itself with the value [undefined]. *)
Theorem normalizeLayoutConfig_spec (layout : jsval) :
  isValidLayoutConfig (normalizeLayoutConfig layout) = true
  /\ normalizeLayoutConfig VUndef = DEFAULT_LAYOUT_CONFIG
  /\ (isValidLayoutConfig layout = false ->
      normalizeLayoutConfig layout = DEFAULT_LAYOUT_CONFIG)
  /\ (isValidLayoutConfig layout = true ->
      forall k, getProp (normalizeLayoutConfig layout) k
                = if hasOwn layout k then getProp layout k
                  else getProp DEFAULT_LAYOUT_CONFIG k)
  /\ (forall k, In k ["type"; "columns"; "gap"] ->
      (getProp (normalizeLayoutConfig layout) k = VUndef
       <-> (isValidLayoutConfig layout = true
            /\ hasOwn layout k = true /\ getProp layout k = VUndef))).
Proof.
  rewrite normalizeLayoutConfig_cases.
  repeat split.
  - destruct (isValidLayoutConfig layout) eqn:V.
    + apply spread_default_valid, V.
    + reflexivity.
  - intros ->. reflexivity.
  - intros V k. rewrite V. apply getProp_spread.
  - destruct (isValidLayoutConfig layout) eqn:V; [reflexivity|].
    exfalso. simpl in H.
    destruct H as [<-|[<-|[<-|[]]]]; discriminate.
  - destruct (isValidLayoutConfig layout) eqn:V.
    + rewrite getProp_spread in H0.
      destruct (hasOwn layout k) eqn:O; [reflexivity|].
      exfalso. simpl in H.
      destruct H as [<-|[<-|[<-|[]]]]; discriminate.
    + exfalso. simpl in H.
      destruct H as [<-|[<-|[<-|[]]]]; discriminate.
  - destruct (isValidLayoutConfig layout) eqn:V.
    + rewrite getProp_spread in H0.
      destruct (hasOwn layout k) eqn:O; [exact H0|].
      exfalso. simpl in H.
      destruct H as [<-|[<-|[<-|[]]]]; discriminate.
    + exfalso. simpl in H.
      destruct H as [<-|[<-|[<-|[]]]]; discriminate.
  - intros (V & O & U). rewrite V, getProp_spread, O. exact U.
Qed.

(** Instance of C9 at the accepted input [{ columns: 3 }]. *)
Lemma normalizeLayoutConfig_spec_witness :
  let layout := VObj [("columns", jint 3)] in
  isValidLayoutConfig layout = true
  /\ getProp (normalizeLayoutConfig layout) "columns" = jint 3
  /\ getProp (normalizeLayoutConfig layout) "gap" = VStr "16px".
Proof.
  intros layout.
  destruct (normalizeLayoutConfig_spec layout) as (_ & _ & _ & Hm & _).
  split; [reflexivity|].
  split; rewrite (Hm eq_refl); reflexivity.
Defined.

(** C9, the claim as stated fails: the accepted input
    [{ columns: undefined }] is spread over the defaults and leaves
    [columns] undefined in the result. *)
Lemma normalizeLayoutConfig_columns_undefined :
  let layout := VObj [("columns", VUndef)] in
  isValidLayoutConfig layout = true
  /\ normalizeLayoutConfig layout <> DEFAULT_LAYOUT_CONFIG
  /\ getProp (normalizeLayoutConfig layout) "columns" = VUndef.
Proof.
  cbv zeta. split; [reflexivity|]. split; [|reflexivity].
  vm_compute. discriminate.
Qed.

(** C10: [getFormContainerLayout] answers [null] on an empty list; on a
    non-empty list it answers the first field's [_rootLayout] when the
    field has one and [null] when it has none, whatever follows the first
    field. *)
Theorem getFormContainerLayout_spec :
  getFormContainerLayout [] = VNull
  /\ (forall first rest props,
        f_rootLayout first = VObj props ->
        getFormContainerLayout (first :: rest) = VObj props)
  /\ (forall first rest,
        f_rootLayout first = VUndef ->
        getFormContainerLayout (first :: rest) = VNull)
  /\ (forall first rest rest',
        getFormContainerLayout (first :: rest)
        = getFormContainerLayout (first :: rest')).
Proof.
  repeat split.
  - intros first rest props H. simpl. unfold getRootLayoutInfo, js_or.
    rewrite H. reflexivity.
  - intros first rest H. simpl. unfold getRootLayoutInfo, js_or.
    rewrite H. reflexivity.
Qed.

(** Instance of C10 on a one-field form whose field carries a root
    layout.  *)
Lemma getFormContainerLayout_spec_witness :
  let layout := VObj [("type", VStr "columns"); ("columns", jint 2)] in
  let field := mkField "a" None None None "text" "text" false (VStr "string")
                 true VUndef VUndef VUndef VUndef VUndef VUndef VUndef VUndef
                 VUndef None VUndef VUndef VUndef None VUndef layout [] in
  getFormContainerLayout [field] = layout.
Proof.
  intros layout field.
  destruct getFormContainerLayout_spec as (_ & H & _).
  apply (H field [] [("type", VStr "columns"); ("columns", jint 2)]).
  reflexivity.
Defined.

(** ** Nesting depth *)

Lemma depth_VArr_in (x : jsval) (l : list jsval) :
  In x l -> depth x < depth (VArr l).
Proof.
  simpl. induction l as [|y l IH]; intros H; [destruct H|].
  destruct H as [->|H]; [lia|]. specialize (IH H). lia.
Qed.

Lemma depth_VObj_in (k : string) (x : jsval) (ps : list (string * jsval)) :
  In (k, x) ps -> depth x < depth (VObj ps).
Proof.
  simpl. induction ps as [|[k' y] ps IH]; intros H; [destruct H|].
  destruct H as [E|H]; [inversion E; subst; lia|]. specialize (IH H). lia.
Qed.

Lemma assoc_In (A : Type) (k : string) (v : A) (l : list (string * A)) :
  assoc k l = Some v -> In (k, v) l.
Proof.
  induction l as [|[k' v'] l IH]; simpl; [discriminate|].
  destruct (String.eqb k k') eqn:E.
  - apply String.eqb_eq in E; subst. intros [= ->]. now left.
  - intros H. right. auto.
Qed.

Lemma index_entries_depth (l : list jsval) (i : nat) (k : string) (x : jsval) :
  In (k, x) (index_entries i l) -> In x l.
Proof.
  revert i. induction l as [|y l IH]; intros i; simpl; [tauto|].
  intros [E|H]; [inversion E; now left|]. right. eauto.
Qed.

(** ** Outcomes *)

Lemma bind_ext (A B : Type) (m1 m2 : outcome A) (k1 k2 : A -> outcome B) :
  m1 = m2 -> (forall a, k1 a = k2 a) -> bind m1 k1 = bind m2 k2.
Proof. intros -> H. destruct m2; simpl; auto. Qed.

Lemma mapM_ext_in (A B : Type) (f g : A -> outcome B) (l : list A) :
  (forall x, In x l -> f x = g x) -> mapM f l = mapM g l.
Proof.
  induction l as [|x l IH]; simpl; intros H; [reflexivity|].
  rewrite (H x) by now left. rewrite IH; [reflexivity|].
  intros; apply H; now right.
Qed.

Lemma mapMi_ext_in (A B : Type) (f g : nat -> A -> outcome B) (l : list A)
      (i : nat) :
  (forall j x, In x l -> f j x = g j x) -> mapMi f i l = mapMi g i l.
Proof.
  revert i. induction l as [|x l IH]; simpl; intros i H; [reflexivity|].
  rewrite (H i x) by now left. rewrite IH; [reflexivity|].
  intros; apply H; now right.
Qed.

Lemma concatM_ext_in (A B : Type) (f g : A -> outcome (list B)) (l : list A) :
  (forall x, In x l -> f x = g x) -> concatM f l = concatM g l.
Proof. intros H. unfold concatM. now rewrite (mapM_ext_in f g l H). Qed.

Lemma concatMi_ext_in (A B : Type) (f g : nat -> A -> outcome (list B))
      (l : list A) :
  (forall j x, In x l -> f j x = g j x) -> concatMi f l = concatMi g l.
Proof. intros H. unfold concatMi. now rewrite (mapMi_ext_in f g l 0 H). Qed.


(** ** Environments that agree up to the behaviour of their operators *)

Definition same_operators (e1 e2 : Env) : Prop :=
  forall name,
    match customJsonLogicOps e1 name, customJsonLogicOps e2 name with
    | Some f, Some g => forall args, f args = g args
    | None, None => True
    | _, _ => False
    end.

Definition env_agree (e1 e2 : Env) : Prop :=
  same_operators e1 e2
  /\ asyncLoaders e1 = asyncLoaders e2
  /\ treatNullAsUndefined e1 = treatNullAsUndefined e2
  /\ allowForbiddenValues e1 = allowForbiddenValues e2
  /\ strictInputType e1 = strictInputType e2
  /\ parse_number e1 = parse_number e2
  /\ render_value e1 = render_value e2
  /\ regex_test e1 = regex_test e2
  /\ format_valid e1 = format_valid e2
  /\ grapheme_count e1 = grapheme_count e2
  /\ default_message e1 = default_message e2.

Lemma env_agree_refl (e : Env) : env_agree e e.
Proof.
  unfold env_agree, same_operators. repeat split.
  intros name. destruct (customJsonLogicOps e name); auto.
Qed.

Ltac split_envs e1 e2 H :=
  destruct e1, e2; unfold env_agree in H; cbn in H;
  destruct H as (H & ? & ? & ? & ? & ? & ? & ? & ? & ? & ?); subst.

(** ** Rule interpreter: agreement *)

Section InterpreterFacts.

Variables e1 e2 : Env.
Hypothesis agree : env_agree e1 e2.

Lemma builtin_agree (op : string) (vals : list jsval) (data : jsval) :
  builtin e1 op vals data = builtin e2 op vals data.
Proof. clear -agree. split_envs e1 e2 agree. reflexivity. Qed.

Lemma to_str_agree (v : jsval) : to_str e1 v = to_str e2 v.
Proof. clear -agree. split_envs e1 e2 agree. reflexivity. Qed.

Lemma apply_operator_agree (op : string) (vals : list jsval) (data : jsval) :
  apply_operator e1 op vals data = apply_operator e2 op vals data.
Proof.
  unfold apply_operator. rewrite builtin_agree.
  destruct (builtin e2 op vals data); [reflexivity|].
  destruct agree as [Hops _]. specialize (Hops op).
  destruct (customJsonLogicOps e1 op), (customJsonLogicOps e2 op);
    try contradiction; [now rewrite Hops|reflexivity].
Qed.

End InterpreterFacts.

Lemma depth_nth (n i : nat) (args : list jsval) :
  (forall e, In e args -> depth e <= n) -> depth (arg i args) <= n.
Proof.
  intros H. unfold arg. destruct (nth_in_or_default i args VUndef) as [I| ->].
  - now apply H.
  - simpl; lia.
Qed.

Section LazyFacts.

Variables ev1 ev2 : jsval -> jsval -> outcome jsval.
Variable n : nat.
Hypothesis ev_agree : forall e d, depth e <= n -> ev1 e d = ev2 e d.

Lemma eval_if_ext (args : list jsval) (data : jsval) :
  (forall e, In e args -> depth e <= n) ->
  eval_if ev1 args data = eval_if ev2 args data.
Proof.
  remember (length args) as m eqn:Hm. assert (Hle : length args <= m) by lia.
  clear Hm. revert args data Hle.
  induction m as [|m IH]; intros args data Hle H.
  - destruct args; [reflexivity|simpl in Hle; lia].
  - destruct args as [|c [|t rest]]; simpl; [reflexivity| |].
    + apply ev_agree, H; now left.
    + apply bind_ext; [apply ev_agree, H; now left|]. intros cv.
      destruct (logic_truthy cv).
      * apply ev_agree, H; right; now left.
      * apply IH; [simpl in Hle; lia|]. intros e He. apply H.
        right; now right.
Qed.

Lemma eval_and_ext (args : list jsval) (data last : jsval) :
  (forall e, In e args -> depth e <= n) ->
  eval_and ev1 args data last = eval_and ev2 args data last.
Proof.
  revert last. induction args as [|e args IH]; simpl; intros last H;
    [reflexivity|].
  apply bind_ext; [apply ev_agree, H; now left|]. intros v.
  destruct (logic_truthy v); [|reflexivity].
  apply IH. intros; apply H; now right.
Qed.

Lemma eval_or_ext (args : list jsval) (data last : jsval) :
  (forall e, In e args -> depth e <= n) ->
  eval_or ev1 args data last = eval_or ev2 args data last.
Proof.
  revert last. induction args as [|e args IH]; simpl; intros last H;
    [reflexivity|].
  apply bind_ext; [apply ev_agree, H; now left|]. intros v.
  destruct (logic_truthy v); [reflexivity|].
  apply IH. intros; apply H; now right.
Qed.

Lemma eval_filter_ext (e : jsval) (items : list jsval) :
  depth e <= n -> eval_filter ev1 e items = eval_filter ev2 e items.
Proof.
  intros He. induction items as [|x items IH]; simpl; [reflexivity|].
  apply bind_ext; [now apply ev_agree|]. intros v. now rewrite IH.
Qed.

Lemma eval_reduce_ext (e : jsval) (items : list jsval) (acc : jsval) :
  depth e <= n -> eval_reduce ev1 e items acc = eval_reduce ev2 e items acc.
Proof.
  intros He. revert acc. induction items as [|x items IH]; simpl; intros acc;
    [reflexivity|].
  apply bind_ext; [now apply ev_agree|]. intros v. apply IH.
Qed.

Lemma eval_lazy_ext (op : string) (args : list jsval) (data : jsval) :
  (forall e, In e args -> depth e <= n) ->
  eval_lazy ev1 op args data = eval_lazy ev2 op args data.
Proof.
  intros H. unfold eval_lazy.
  destruct ((op =? "if") || (op =? "?:")); [now apply eval_if_ext|].
  destruct (op =? "and"); [now apply eval_and_ext|].
  destruct (op =? "or"); [now apply eval_or_ext|].
  destruct (op =? "reduce").
  - apply bind_ext; [apply ev_agree, depth_nth, H|]. intros init.
    apply bind_ext; [apply ev_agree, depth_nth, H|]. intros arr.
    destruct arr; try reflexivity. apply eval_reduce_ext, depth_nth, H.
  - apply bind_ext; [apply ev_agree, depth_nth, H|]. intros arr.
    destruct (op =? "map").
    + apply bind_ext; [|reflexivity]. apply mapM_ext_in. intros x _.
      apply ev_agree, depth_nth, H.
    + apply bind_ext; [|reflexivity]. apply eval_filter_ext, depth_nth, H.
Qed.

End LazyFacts.

(** The operands of an operation lie strictly below it. *)
Lemma operands_depth (op : string) (raw e : jsval) :
  In e (match raw with VArr l => l | _ => [raw] end) ->
  depth e <= depth raw.
Proof.
  destruct raw; simpl; intros H;
    try (destruct H as [<-|[]]; simpl; lia).
  apply depth_VArr_in in H. simpl in H. lia.
Qed.

Lemma depth_single (op : string) (raw : jsval) :
  depth (VObj [(op, raw)]) = S (depth raw).
Proof. simpl. now rewrite Nat.max_0_r. Qed.

Lemma evaluate_fuel_agree (e1 e2 : Env) :
  env_agree e1 e2 ->
  forall (f1 f2 : nat) (expr data : jsval),
    depth expr < f1 -> depth expr < f2 ->
    evaluate_fuel e1 f1 expr data = evaluate_fuel e2 f2 expr data.
Proof.
  intros agree. induction f1 as [|f1 IH]; intros f2 expr data H1 H2; [lia|].
  destruct f2 as [|f2]; [lia|]. simpl.
  destruct expr as [| |b|x|s|items|ps|t]; try reflexivity.
  - apply bind_ext; [|reflexivity]. apply mapM_ext_in. intros e He.
    apply depth_VArr_in in He. apply IH; lia.
  - destruct ps as [|[op raw] [|? ?]]; try reflexivity.
    rewrite depth_single in H1, H2.
    destruct (is_lazy op).
    + apply eval_lazy_ext with (n := depth raw).
      * intros e d He. apply IH; lia.
      * apply operands_depth; exact op.
    + apply bind_ext.
      * apply mapM_ext_in. intros e He.
        apply (operands_depth op) in He. apply IH; lia.
      * intros vals. now apply apply_operator_agree.
Qed.

Lemma evaluate_agree (e1 e2 : Env) (expr data : jsval) :
  env_agree e1 e2 -> evaluate e1 expr data = evaluate e2 expr data.
Proof. intros H. unfold evaluate. apply evaluate_fuel_agree; auto. Qed.

(** ** Validator: agreement *)

Lemma validate_rule_agree (e1 e2 : Env) (rules root schema ref : jsval)
      (p : list segment) :
  env_agree e1 e2 ->
  validate_rule e1 rules root schema ref p
  = validate_rule e2 rules root schema ref p.
Proof.
  intros agree. unfold validate_rule, error_message.
  destruct ref; try (destruct agree as (_ & _ & _ & _ & _ & _ & -> & _);
                     reflexivity).
  destruct (getProp (getProp rules "validations") s); try reflexivity.
  rewrite (evaluate_agree _ _ agree).
  destruct agree as (_ & _ & _ & _ & _ & _ & _ & _ & _ & _ & ->).
  reflexivity.
Qed.

Ltac split_keywords :=
  repeat (match goal with
          | |- (if ?b then _ else _) = _ => destruct b eqn:?
          end; [try reflexivity|]).

Section KeywordFacts.

Variables e1 e2 : Env.
Hypothesis agree : env_agree e1 e2.
Variables rules root : jsval.
Variables rec1 rec2 : jsval -> jsval -> list segment
                      -> outcome (list ValidationError).
Variable n : nat.
Hypothesis rec_agree : forall s v p, depth s <= n -> rec1 s v p = rec2 s v p.

Lemma branch_results_agree (kw : string) (branches : list jsval) (v : jsval)
      (p : list segment) :
  depth (VArr branches) <= n ->
  branch_results rec1 kw branches v p = branch_results rec2 kw branches v p.
Proof.
  intros H. unfold branch_results. apply mapMi_ext_in. intros j s Hs.
  apply rec_agree. apply depth_VArr_in in Hs. lia.
Qed.

Lemma validate_keyword_agree (schema : jsval) (kw : string) (a v : jsval)
      (p : list segment) :
  depth a <= n ->
  validate_keyword e1 rules root rec1 schema kw a v p
  = validate_keyword e2 rules root rec2 schema kw a v p.
Proof.
  intros Ha.
  pose proof agree as (_ & _ & Ht & _ & _ & _ & _ & Hre & Hfo & Hg & Hd).
  unfold validate_keyword, mkErr, error_message, is_absent.
  rewrite Ht, Hre, Hfo, Hg, Hd.
  split_keywords.
  - (* properties *)
    destruct v; try reflexivity. destruct a; try reflexivity.
    apply concatM_ext_in. intros [k s] Hk. simpl.
    destruct (match getProp (VObj props) k with
              | VUndef => true
              | VNull => treatNullAsUndefined e2
              | _ => false
              end); [reflexivity|].
    apply rec_agree. apply depth_VObj_in in Hk. lia.
  - (* patternProperties *)
    destruct v; try reflexivity. destruct a; try reflexivity.
    apply concatM_ext_in. intros [pat s] Hp.
    apply concatM_ext_in. intros [k x] Hk. simpl.
    destruct (regex_test e2 pat k); [|reflexivity].
    apply rec_agree. apply depth_VObj_in in Hp. lia.
  - (* additionalProperties *)
    destruct v; try reflexivity.
    apply concatM_ext_in. intros [k x] Hk. simpl.
    destruct (hasOwn _ _ || _); [reflexivity|].
    destruct a as [| |[|]| | | | |]; try reflexivity; now apply rec_agree.
  - (* prefixItems *)
    destruct v; try reflexivity. destruct a; try reflexivity.
    apply concatMi_ext_in. intros j s Hs.
    destruct (nth_error items j); [|reflexivity].
    apply rec_agree. apply depth_VArr_in in Hs. lia.
  - (* items *)
    destruct v; try reflexivity.
    apply concatMi_ext_in. intros j x Hx.
    destruct (Nat.ltb j _); [reflexivity|]. now apply rec_agree.
  - (* contains *)
    destruct v; try reflexivity.
    apply bind_ext; [|reflexivity].
    apply mapMi_ext_in. intros j x Hx. now apply rec_agree.
  - (* allOf *)
    destruct a; try reflexivity.
    apply bind_ext; [|reflexivity]. now apply branch_results_agree.
  - (* anyOf *)
    destruct a; try reflexivity.
    apply bind_ext; [|reflexivity]. now apply branch_results_agree.
  - (* oneOf *)
    destruct a; try reflexivity.
    apply bind_ext; [|reflexivity]. now apply branch_results_agree.
  - (* not *)
    apply bind_ext; [|reflexivity]. now apply rec_agree.
  - (* named rules *)
    destruct a; try reflexivity.
    apply concatM_ext_in. intros ref _. now apply validate_rule_agree.
  - reflexivity.
Qed.

End KeywordFacts.

Lemma validate_fuel_agree (e1 e2 : Env) (rules root : jsval) :
  env_agree e1 e2 ->
  forall (f1 f2 : nat) (schema value : jsval) (p : list segment),
    depth schema < f1 -> depth schema < f2 ->
    validate_fuel e1 rules root f1 schema value p
    = validate_fuel e2 rules root f2 schema value p.
Proof.
  intros agree. induction f1 as [|f1 IH]; intros f2 schema value p H1 H2;
    [lia|].
  destruct f2 as [|f2]; [lia|]. simpl.
  pose proof agree as (_ & _ & _ & Hf & _ & _ & _ & _ & _ & _ & Hd).
  destruct schema as [| |b|x|s|items|ps|t];
    [reflexivity|reflexivity| |reflexivity|reflexivity|reflexivity| |
     reflexivity].
  - unfold mkErr, error_message. rewrite Hf, Hd. reflexivity.
  - unfold mkErr, error_message. rewrite Hd.
    destruct (negb (type_ok (VObj ps) value)); [reflexivity|].
    apply concatM_ext_in. intros [kw a] Hin. simpl.
    apply depth_VObj_in in Hin.
    apply validate_keyword_agree with (n := depth a); auto.
    intros s v q Hs. apply IH; lia.
Qed.

(** Any budget above the nesting depth of the schema gives the result of
    [validate]. *)
Lemma validate_fuel_stable (env : Env) (rules root : jsval) (f : nat)
      (schema value : jsval) (p : list segment) :
  depth schema < f ->
  validate_fuel env rules root f schema value p
  = validate env rules root schema value p.
Proof.
  intros H. unfold validate.
  apply validate_fuel_agree; [apply env_agree_refl|lia|lia].
Qed.

(** ** Composition: [oneOf] *)

Lemma validate_keyword_oneOf (env : Env) (rules root : jsval)
      (rec : jsval -> jsval -> list segment -> outcome (list ValidationError))
      (schema : jsval) (branches : list jsval) (v : jsval) (p : list segment) :
  validate_keyword env rules root rec schema "oneOf" (VArr branches) v p
  = (rs <- branch_results rec "oneOf" branches v p ;;
     if Nat.eqb (length (filter is_nil rs)) 1 then Ok []
     else Ok [mkErr env schema "oneOf" p (VArr branches)]).
Proof. reflexivity. Qed.

(** C6: a node whose only keyword is [oneOf] has no error when the value
    matches exactly one branch, and exactly one error, of keyword [oneOf],
    when it matches none or several; on
    [oneOf: [{const: "a"}, {const: "b"}]] the value ["a"] has no error and
    the value ["c"] has exactly one, of keyword [oneOf]. *)
Theorem oneOf_exactly_one (env : Env) (rules root : jsval)
        (branches : list jsval) (v : jsval) (p : list segment)
        (results : list (list ValidationError)) :
  branch_results (validate env rules root) "oneOf" branches v p = Ok results ->
  let node := VObj [("oneOf", VArr branches)] in
  let matching := length (filter is_nil results) in
  (matching = 1 -> validate env rules root node v p = Ok [])
  /\ (matching <> 1 ->
      exists e, validate env rules root node v p = Ok [e]
                /\ keyword e = "oneOf" /\ path e = p)
  /\ validate env rules root oneOf_example (VStr "a") p = Ok []
  /\ (exists e, validate env rules root oneOf_example (VStr "c") p = Ok [e]
                /\ keyword e = "oneOf").
Proof.
  intros Hb node matching.
  assert (V : validate env rules root node v p
              = if Nat.eqb matching 1 then Ok []
                else Ok [mkErr env node "oneOf" p (VArr branches)]).
  { unfold validate.
    change (validate_fuel env rules root (S (depth node)) node v p)
      with (concatM
              (fun kv =>
                 validate_keyword env rules root
                   (validate_fuel env rules root (depth node)) node
                   (fst kv) (snd kv) v p)
              [("oneOf", VArr branches)]).
    unfold concatM. cbn [mapM fst snd]. rewrite validate_keyword_oneOf.
    replace (branch_results (validate_fuel env rules root (depth node))
                            "oneOf" branches v p)
      with (branch_results (validate env rules root) "oneOf" branches v p).
    - rewrite Hb. cbn [bind]. fold matching.
      destruct (Nat.eqb matching 1); reflexivity.
    - unfold branch_results. apply mapMi_ext_in. intros j s Hs.
      symmetry. apply validate_fuel_stable.
      apply depth_VArr_in in Hs. unfold node. rewrite depth_single. lia. }
  split; [|split; [|split]].
  - intros E. rewrite V, E. reflexivity.
  - intros Hne. rewrite V. apply Nat.eqb_neq in Hne. rewrite Hne.
    eexists. repeat split.
  - reflexivity.
  - eexists. split; reflexivity.
Qed.

(** Instance of C6 on the example schema, whose first branch alone
    matches ["a"]. *)
Lemma oneOf_exactly_one_witness :
  validate (plain_env ops_first_a) VUndef VUndef oneOf_example (VStr "a") []
  = Ok [].
Proof.
  refine (proj1 (@oneOf_exactly_one (plain_env ops_first_a) VUndef VUndef
                   [VObj [("const", VStr "a")]; VObj [("const", VStr "b")]]
                   (VStr "a") [] [[]; _] _) _);
    reflexivity.
Defined.

(** ** Named rules *)








(** ** Options of a field *)







(** ** Error paths *)

Lemma reconcile_path_step (st : schema_step) (rest : list segment) :
  step_ok st = true ->
  reconcile_path (raw_step st ++ rest) = field_step st ++ reconcile_path rest.
Proof.
  destruct st as [name|i|kw i|kw]; cbn [step_ok raw_step field_step app].
  - reflexivity.
  - reflexivity.
  - intros H. cbn [reconcile_path]. now rewrite H.
  - intros H. cbn [reconcile_path].
    assert (C : existsb (String.eqb kw) composition_keywords = false).
    { unfold conditional_keywords in H. cbn [existsb] in H.
      apply orb_prop in H. destruct H as [H|H];
        [|apply orb_prop in H; destruct H as [H|H]; [|discriminate]];
        apply String.eqb_eq in H; subst; reflexivity. }
    now rewrite C, H.
Qed.

(** C2 (as amended): the reconciler rewrites a path from schema-tree to
    field-tree addressing.  It drops a composition keyword ([allOf],
    [anyOf], [oneOf]) together with the branch index after it, drops a
    conditional keyword ([then], [else]), drops the [items] marker and
    keeps the index after it, drops a [properties] marker and keeps the
    property name after it, and keeps an index; so a path made of
    validator steps reconciles to its property names and item indices,
    in order.  The path [properties, address, allOf, 0, properties, zip]
    reconciles to [address, zip] and
    [properties, items, items, 2, properties, email] to
    [items, 2, email]; both are paths the validator reports, and their
    errors come back at these places of the form errors. *)
Theorem reconcile_path_spec :
  (forall k i rest,
      In k composition_keywords ->
      reconcile_path (SKey k :: SIdx i :: rest) = reconcile_path rest)
  /\ (forall k rest,
         In k conditional_keywords ->
         reconcile_path (SKey k :: rest) = reconcile_path rest)
  /\ (forall i rest,
         reconcile_path (SKey "items" :: SIdx i :: rest)
         = SIdx i :: reconcile_path rest)
  /\ (forall name rest,
         reconcile_path (SKey "properties" :: name :: rest)
         = name :: reconcile_path rest)
  /\ (forall i rest,
         reconcile_path (SIdx i :: rest) = SIdx i :: reconcile_path rest)
  /\ (forall steps,
         forallb step_ok steps = true ->
         reconcile_path (raw_path steps) = field_path steps)
  /\ reconcile_path raw_path_zip = [SKey "address"; SKey "zip"]
  /\ reconcile_path raw_path_email = [SKey "items"; SIdx 2; SKey "email"]
  /\ (forall env,
         exists e,
           validate_resolved env address_form
                             (VObj [("address", VObj [("zip", jint 5)])])
           = Ok [e]
           /\ path e = raw_path_zip
           /\ handleValidation env address_form
                               (VObj [("address", VObj [("zip", jint 5)])])
              = Ok (mkValidationResult
                      (Some (FE [("address",
                                  FNested (FE [("zip", FLeaf (message e))]))]))))
  /\ (forall env,
         exists e,
           validate_resolved env items_form
             (VObj [("items",
                     VArr [VObj []; VObj []; VObj [("email", jint 5)]])])
           = Ok [e]
           /\ path e = raw_path_email
           /\ handleValidation env items_form
                (VObj [("items",
                        VArr [VObj []; VObj []; VObj [("email", jint 5)]])])
              = Ok (mkValidationResult
                      (Some (FE [("items",
                                  FList [None; None;
                                         Some (FE [("email",
                                                    FLeaf (message e))])])])))).
Proof.
  split; [|split; [|split; [|split; [|split; [|split; [|split; [|split;
    [|split]]]]]]]].
  - intros k i rest H. apply (reconcile_path_step (BranchStep k i) rest).
    cbn [step_ok]. apply existsb_exists. exists k.
    split; [exact H|apply String.eqb_refl].
  - intros k rest H. apply (reconcile_path_step (CondStep k) rest).
    cbn [step_ok]. apply existsb_exists. exists k.
    split; [exact H|apply String.eqb_refl].
  - reflexivity.
  - reflexivity.
  - reflexivity.
  - induction steps as [|st steps IH]; intros H; [reflexivity|].
    cbn [forallb] in H. apply andb_prop in H. destruct H as [Hs Hr].
    unfold raw_path, field_path in *. cbn [flat_map].
    rewrite (reconcile_path_step st _ Hs). now rewrite IH.
  - reflexivity.
  - reflexivity.
  - intros env. eexists. split; [reflexivity|]. split; reflexivity.
  - intros env. eexists. split; [reflexivity|]. split; reflexivity.
Qed.

(** Instance of C2 on a path through an [anyOf] branch of an array item. *)
Lemma reconcile_path_spec_witness :
  reconcile_path [SKey "properties"; SKey "list"; SKey "items"; SIdx 1;
                  SKey "anyOf"; SIdx 0; SKey "properties"; SKey "name"]
  = [SKey "list"; SIdx 1; SKey "name"].
Proof.
  destruct reconcile_path_spec as (_ & _ & _ & _ & _ & H & _).
  apply (H [PropStep "list"; ItemStep 1; BranchStep "anyOf" 0;
            PropStep "name"]).
  reflexivity.
Defined.

(** C2, the claim as stated fails: on the first raw path of its own
    examples the [properties] markers and the index [0] are not left
    intact.  The reconciler answers [address, zip], as the claim says, and
    whatever answers [address, zip] there has dropped both. *)
Lemma reconcile_path_drops_markers :
  In (SKey "properties") raw_path_zip
  /\ In (SIdx 0) raw_path_zip
  /\ reconcile_path raw_path_zip = [SKey "address"; SKey "zip"]
  /\ ~ In (SKey "properties") (reconcile_path raw_path_zip)
  /\ ~ In (SIdx 0) (reconcile_path raw_path_zip)
  /\ (forall f : list segment -> list segment,
         f raw_path_zip = [SKey "address"; SKey "zip"] ->
         ~ In (SKey "properties") (f raw_path_zip)
         /\ ~ In (SIdx 0) (f raw_path_zip)).
Proof.
  repeat split; try (simpl; tauto);
    try (intros [H|[H|[]]]; discriminate).
  - intros Hin. rewrite H in Hin. destruct Hin as [E|[E|[]]]; discriminate.
  - intros Hin. rewrite H in Hin. destruct Hin as [E|[E|[]]]; discriminate.
Qed.

(* ===================================================================== *)
(** * Part III. The layout helpers, further properties                    *)
(* ===================================================================== *)

(** ** Validation of a layout, by what it accepts *)

Lemma q_is_integer_spec (q : Q) :
  q_is_integer q = true <-> exists z, Qeq q (inject_Z z).
Proof.
  unfold q_is_integer, Qeq. simpl. rewrite Z.eqb_eq. split.
  - intros H. exists (Z.quot (Qnum q) (Zpos (Qden q))).
    pose proof (Z.quot_rem' (Qnum q) (Zpos (Qden q))) as E. lia.
  - intros [z E]. rewrite Z.mul_1_r in E. rewrite E.
    apply Z.rem_mul. discriminate.
Qed.

Lemma bad_count_spec (v : jsval) : bad_count v = false <-> count_ok v.
Proof.
  unfold bad_count, count_ok, positive_integer.
  destruct v as [| |b|[q| | |]|s|l|ps|t]; simpl;
    try (split; [discriminate|];
         intros [E|(q' & z & E & _)]; discriminate).
  - split; auto.
  - rewrite orb_false_iff, !negb_false_iff. split.
    + intros [Hi Hl]. right. apply q_is_integer_spec in Hi.
      destruct Hi as [z Hz]. exists q, z. repeat split; auto.
      apply Qle_bool_iff in Hl. rewrite Hz in Hl.
      unfold Qle in Hl. simpl in Hl. lia.
    + intros [E|(q' & z & E & Hz & H1)]; [discriminate|].
      injection E as <-. split.
      * apply q_is_integer_spec. now exists z.
      * apply Qle_bool_iff. rewrite Hz. unfold Qle. simpl. lia.
Qed.

Lemma existsb_false (A : Type) (f : A -> bool) (l : list A) :
  existsb f l = false <-> forall x, In x l -> f x = false.
Proof.
  induction l as [|y l IH]; simpl.
  - split; [intros _ x []|reflexivity].
  - rewrite orb_false_iff, IH. split.
    + intros [H1 H2] x [<-|Hin]; auto.
    + intros H. split; [apply H; now left|]. intros x Hin. apply H. now right.
Qed.

Lemma bad_responsive_spec (r : jsval) :
  bad_responsive r = false
  <-> forall key, In key responsiveKeys -> count_ok (getProp r key).
Proof.
  unfold bad_responsive. rewrite existsb_false. split; intros H key Hin.
  - apply bad_count_spec. now apply H.
  - apply bad_count_spec. now apply H.
Qed.

Lemma bad_col_prop_spec (v : jsval) :
  bad_col_prop v = false
  <-> count_ok v
      \/ ((exists ps, v = VObj ps) \/ (exists l, v = VArr l))
         /\ forall key, In key responsiveKeys -> count_ok (getProp v key).
Proof.
  unfold bad_col_prop.
  destruct v as [| |b|n|s|l|ps|t]; cbn [is_undefined typeof].
  - split; [left; now left|reflexivity].
  - split; [discriminate|].
    intros [[E|(q & z & E & _)]|[[[ps E]|[l E]] _]]; discriminate.
  - split; [discriminate|].
    intros [[E|(q & z & E & _)]|[[[ps E]|[l E]] _]]; discriminate.
  - change (negb (isInteger (VNum n)) || lt_one (VNum n))
      with (bad_count (VNum n)).
    rewrite bad_count_spec. split; [now left|].
    intros [H|[[[ps E]|[l E]] _]]; [exact H|discriminate|discriminate].
  - split; [discriminate|].
    intros [[E|(q & z & E & _)]|[[[ps E]|[l E]] _]]; discriminate.
  - rewrite bad_responsive_spec. split.
    + intros H. right. split; [right; now exists l|exact H].
    + intros [[E|(q & z & E & _)]|[_ H]]; [discriminate|discriminate|exact H].
  - rewrite bad_responsive_spec. split.
    + intros H. right. split; [left; now exists ps|exact H].
    + intros [[E|(q & z & E & _)]|[_ H]]; [discriminate|discriminate|exact H].
  - split; [discriminate|].
    intros [[E|(q & z & E & _)]|[[[ps E]|[l E]] _]]; discriminate.
Qed.

(** X2: an object is a valid layout exactly when its [type] is falsy or
    ['columns'], its [columns] is absent or an integer of at least 1, its
    [gap] is falsy or a string, the breakpoints of a truthy [responsive]
    are absent or integers of at least 1, and each of [colSpan],
    [colStart], [colEnd] is absent, such an integer, or an object whose
    breakpoints are. *)
Theorem isValidLayoutConfig_accepts (ps : list (string * jsval)) :
  let layout := VObj ps in
  isValidLayoutConfig layout = true
  <-> (truthy (getProp layout "type") = false
       \/ getProp layout "type" = VStr "columns")
      /\ count_ok (getProp layout "columns")
      /\ (truthy (getProp layout "gap") = false
          \/ exists s, getProp layout "gap" = VStr s)
      /\ (truthy (getProp layout "responsive") = true ->
          forall key, In key responsiveKeys ->
                      count_ok (getProp (getProp layout "responsive") key))
      /\ forall prop, In prop colProps ->
           count_ok (getProp layout prop)
           \/ ((exists qs, getProp layout prop = VObj qs)
               \/ (exists l, getProp layout prop = VArr l))
              /\ forall key, In key responsiveKeys ->
                             count_ok (getProp (getProp layout prop) key).
Proof.
  cbv zeta. rewrite isValidLayoutConfig_checks. unfold layout_checks.
  rewrite !andb_true_iff, !negb_true_iff, !orb_false_iff.
  rewrite bad_count_spec, !bad_col_prop_spec.
  assert (Ty : forall ty,
             truthy ty && negb match ty with
                               | VStr s => s =? "columns"
                               | _ => false
                               end = false
             <-> truthy ty = false \/ ty = VStr "columns").
  { intros ty. rewrite andb_false_iff, negb_false_iff. split.
    - intros [H|H]; [now left|right].
      destruct ty; try discriminate. apply String.eqb_eq in H. now subst.
    - intros [H|H]; [now left|right]. rewrite H. reflexivity. }
  assert (Gap : forall gap,
             truthy gap && negb match typeof gap with
                                | TyString => true
                                | _ => false
                                end = false
             <-> truthy gap = false \/ exists s, gap = VStr s).
  { intros gap. rewrite andb_false_iff, negb_false_iff. split.
    - intros [H|H]; [now left|right].
      destruct gap; try discriminate. now exists s.
    - intros [H|[s H]]; [now left|right]. rewrite H. reflexivity. }
  assert (Resp : forall r,
             truthy r && bad_responsive r = false
             <-> (truthy r = true ->
                  forall key, In key responsiveKeys ->
                              count_ok (getProp r key))).
  { intros r. rewrite andb_false_iff, bad_responsive_spec. split.
    - intros [H|H]; [congruence|auto].
    - intros H. destruct (truthy r); [right; auto|now left]. }
  rewrite Ty, Gap, Resp. split.
  - intros [[[[H1 H2] H3] H4] [[H5 H6] H7]]. repeat split; auto.
    intros prop [<-|[<-|[<-|[]]]]; assumption.
  - intros (H1 & H2 & H3 & H4 & H5). repeat split; auto.
    + apply (H5 "colSpan"). simpl. tauto.
    + apply (H5 "colStart"). simpl. tauto.
    + apply (H5 "colEnd"). simpl. tauto.
Qed.

(** X1: validity is decided by the seven properties the validator reads;
    whatever else two objects hold, they are accepted or rejected
    together when they agree on these. *)
Theorem isValidLayoutConfig_frame (ps qs : list (string * jsval)) :
  (forall k, In k layout_keys -> getProp (VObj ps) k = getProp (VObj qs) k) ->
  isValidLayoutConfig (VObj ps) = isValidLayoutConfig (VObj qs).
Proof.
  intros H. rewrite !isValidLayoutConfig_checks.
  rewrite (H "type"), (H "columns"), (H "gap"), (H "responsive"),
    (H "colSpan"), (H "colStart"), (H "colEnd");
    first [reflexivity | simpl; tauto].
Qed.

(** Instance of X1: a [title] beside an invalid [columns] changes
    nothing. *)
Lemma isValidLayoutConfig_frame_witness :
  isValidLayoutConfig (VObj [("columns", jint 0); ("title", VStr "x")])
  = isValidLayoutConfig (VObj [("columns", jint 0)]).
Proof.
  apply isValidLayoutConfig_frame.
  intros k Hk. simpl in Hk.
  repeat (destruct Hk as [<-|Hk]; [reflexivity|]). destruct Hk.
Defined.

(** ** Arrays as layouts *)

Lemma digits_of_head (fuel : nat) :
  forall n acc, exists c rest,
    digits_of (S fuel) n acc = String c rest /\ is_digit c = true.
Proof.
  induction fuel as [|fuel IH]; intros n acc; cbn [digits_of].
  - assert (D : is_digit (ascii_of_nat (48 + n mod 10)) = true).
    { unfold is_digit. rewrite nat_ascii_embedding.
      - pose proof (Nat.mod_upper_bound n 10).
        apply andb_true_iff. split; apply Nat.leb_le; lia.
      - pose proof (Nat.mod_upper_bound n 10). lia. }
    destruct (n / 10 =? 0)%nat; eauto.
  - assert (D : is_digit (ascii_of_nat (48 + n mod 10)) = true).
    { unfold is_digit. rewrite nat_ascii_embedding.
      - pose proof (Nat.mod_upper_bound n 10).
        apply andb_true_iff. split; apply Nat.leb_le; lia.
      - pose proof (Nat.mod_upper_bound n 10). lia. }
    destruct (n / 10 =? 0)%nat; [eauto|]. apply IH.
Qed.

Lemma assoc_index_entries_name (k : string) (l : list jsval) :
  is_name k = true -> forall i, assoc k (index_entries i l) = None.
Proof.
  intros Hk. induction l as [|x l IH]; intros i; [reflexivity|].
  cbn [index_entries assoc]. rewrite IH.
  destruct (k =? nat_to_string i) eqn:E; [|reflexivity].
  apply String.eqb_eq in E. unfold nat_to_string in E.
  destruct (digits_of_head i i EmptyString) as (c & rest & Ed & Hd).
  rewrite Ed in E. subst k. simpl in Hk. rewrite Hd in Hk. discriminate.
Qed.

Lemma getProp_array_name (l : list jsval) (k : string) :
  is_name k = true -> getProp (VArr l) k = VUndef.
Proof.
  intros Hk. unfold getProp. cbn [own_entries].
  now rewrite assoc_index_entries_name.
Qed.

(** X3: [isValidLayoutConfig] rejects [undefined], [null] and every
    boolean, number, string and function; it accepts the empty object and
    every array, and normalising an array leaves the three defaults in
    place. *)
Theorem isValidLayoutConfig_by_type :
  isValidLayoutConfig VUndef = false
  /\ isValidLayoutConfig VNull = false
  /\ (forall b, isValidLayoutConfig (VBool b) = false)
  /\ (forall n, isValidLayoutConfig (VNum n) = false)
  /\ (forall s, isValidLayoutConfig (VStr s) = false)
  /\ (forall t, isValidLayoutConfig (VFun t) = false)
  /\ isValidLayoutConfig (VObj []) = true
  /\ (forall l, isValidLayoutConfig (VArr l) = true)
  /\ (forall l k, In k ["type"; "columns"; "gap"] ->
        getProp (normalizeLayoutConfig (VArr l)) k
        = getProp DEFAULT_LAYOUT_CONFIG k).
Proof.
  assert (A : forall l, isValidLayoutConfig (VArr l) = true).
  { intros l. rewrite isValidLayoutConfig_checks.
    rewrite !getProp_array_name by reflexivity. reflexivity. }
  repeat split; try (intros; rewrite isValidLayoutConfig_checks; reflexivity).
  - exact A.
  - intros l k Hk. rewrite normalizeLayoutConfig_cases, A, getProp_spread.
    assert (O : hasOwn (VArr l) k = false).
    { unfold hasOwn, has_key. cbn [own_entries].
      rewrite assoc_index_entries_name; [reflexivity|].
      simpl in Hk. destruct Hk as [<-|[<-|[<-|[]]]]; reflexivity. }
    now rewrite O.
Qed.

(** ** Key order of a property table *)

Lemma has_key_In (A : Type) (k : string) (l : list (string * A)) :
  has_key k l = true <-> In k (keys l).
Proof.
  rewrite has_key_existsb, existsb_exists. split.
  - intros (y & Hy & E). apply String.eqb_eq in E. now subst.
  - intros H. exists k. split; [exact H|apply String.eqb_refl].
Qed.

Lemma keys_set_key (A : Type) (k : string) (v : A) (l : list (string * A)) :
  keys (set_key k v l) = if has_key k l then keys l else keys l ++ [k].
Proof.
  unfold has_key. induction l as [|[k0 v0] l IH]; simpl; [reflexivity|].
  destruct (k =? k0) eqn:E; simpl; [reflexivity|].
  rewrite IH. now destruct (assoc k l).
Qed.

Lemma NoDup_set_key (A : Type) (k : string) (v : A) (l : list (string * A)) :
  NoDup (keys l) -> NoDup (keys (set_key k v l)).
Proof.
  intros H. rewrite keys_set_key. destruct (has_key k l) eqn:E; [exact H|].
  apply NoDup_app; [exact H|repeat constructor; intros []|].
  intros x Hx [<-|[]]. apply has_key_In in Hx. congruence.
Qed.

(** Two tables with the same distinct keys, in the same order, and the
    same value under every key are the same table. *)
Lemma assoc_ext (A : Type) (l l' : list (string * A)) :
  NoDup (keys l) -> keys l = keys l' ->
  (forall k, In k (keys l) -> assoc k l = assoc k l') ->
  l = l'.
Proof.
  revert l'. induction l as [|[k v] l IH]; intros [|[k' v'] l'] Hd Hk Hv;
    try discriminate; [reflexivity|].
  simpl in Hk. injection Hk as -> Hk.
  inversion Hd as [|? ? Hn Hd']; subst.
  pose proof (Hv k' (or_introl eq_refl)) as H0. simpl in H0.
  rewrite String.eqb_refl in H0. injection H0 as ->.
  f_equal. apply IH; auto.
  intros k Hin. specialize (Hv k (or_intror Hin)). simpl in Hv.
  destruct (k =? k') eqn:E; [|exact Hv].
  apply String.eqb_eq in E; subst. contradiction.
Qed.

Section SpreadKeys.

Variable b : jsval.

Let step := fun (acc : list (string * jsval)) (k : string) =>
              set_key k (getProp b k) acc.

Lemma spread_keys_NoDup (ks : list string) :
  forall acc, NoDup (keys acc) -> NoDup (keys (fold_left step ks acc)).
Proof.
  induction ks as [|k ks IH]; intros acc H; [exact H|].
  simpl. apply IH. now apply NoDup_set_key.
Qed.

Lemma spread_keys_prefix (ks : list string) :
  forall acc, exists ext, keys (fold_left step ks acc) = keys acc ++ ext.
Proof.
  induction ks as [|k ks IH]; intros acc.
  - exists []. simpl. now rewrite app_nil_r.
  - simpl. destruct (IH (step acc k)) as [ext E]. rewrite E.
    unfold step. rewrite keys_set_key.
    destruct (has_key k acc); [now exists ext|].
    exists (k :: ext). now rewrite <- app_assoc.
Qed.

Lemma spread_keys_within (ks : list string) :
  forall acc, (forall k, In k ks -> In k (keys acc)) ->
              keys (fold_left step ks acc) = keys acc.
Proof.
  induction ks as [|k ks IH]; intros acc H; [reflexivity|]. simpl.
  assert (E : keys (step acc k) = keys acc).
  { unfold step. rewrite keys_set_key.
    assert (has_key k acc = true) as -> by (apply has_key_In, H; now left).
    reflexivity. }
  rewrite IH; [exact E|]. intros k' Hin. rewrite E. apply H. now right.
Qed.

Lemma spread_keys_fresh (ext : list string) :
  forall acc, NoDup (keys acc ++ ext) ->
              keys (fold_left step ext acc) = keys acc ++ ext.
Proof.
  induction ext as [|k ext IH]; intros acc H.
  - simpl. now rewrite app_nil_r.
  - simpl.
    assert (E : keys (step acc k) = keys acc ++ [k]).
    { unfold step. rewrite keys_set_key.
      destruct (has_key k acc) eqn:Hk; [|reflexivity].
      apply has_key_In in Hk. apply NoDup_remove_2 in H.
      exfalso. apply H, in_or_app. now left. }
    rewrite IH; rewrite E, <- app_assoc; [reflexivity|exact H].
Qed.

End SpreadKeys.

(** Spreading an object with distinct keys over a table that holds its
    first keys gives the object back. *)
Lemma spread_onto_prefix (a : jsval) (es : list (string * jsval))
      (ext : list string) :
  NoDup (keys es) -> NoDup (keys (own_entries a)) ->
  keys es = keys (own_entries a) ++ ext ->
  spread a (VObj es) = VObj es.
Proof.
  intros Hd Ha Hk. unfold spread. f_equal. cbn [own_entries].
  assert (K : keys (fold_left (fun acc k => set_key k (getProp (VObj es) k) acc)
                              (keys es) (own_entries a)) = keys es).
  { rewrite Hk at 1. rewrite fold_left_app.
    rewrite spread_keys_fresh.
    - rewrite spread_keys_within; [now rewrite Hk|auto].
    - rewrite spread_keys_within; [now rewrite <- Hk|auto]. }
  apply assoc_ext.
  - now apply spread_keys_NoDup.
  - exact K.
  - intros k Hin. rewrite K in Hin. rewrite assoc_fold_set.
    apply has_key_In in Hin. rewrite <- has_key_existsb, Hin.
    unfold getProp. cbn [own_entries]. unfold has_key in Hin.
    now destruct (assoc k es).
Qed.

(** X4: normalising a normalised configuration changes nothing. *)
Theorem normalizeLayoutConfig_idempotent (layout : jsval) :
  normalizeLayoutConfig (normalizeLayoutConfig layout)
  = normalizeLayoutConfig layout.
Proof.
  rewrite (normalizeLayoutConfig_cases layout).
  destruct (isValidLayoutConfig layout) eqn:V; [|reflexivity].
  rewrite normalizeLayoutConfig_cases, (spread_default_valid _ V).
  assert (D : NoDup (keys (own_entries DEFAULT_LAYOUT_CONFIG))).
  { simpl. repeat constructor; simpl; intuition discriminate. }
  unfold spread at 2 3.
  destruct (spread_keys_prefix layout (keys (own_entries layout))
              (own_entries DEFAULT_LAYOUT_CONFIG)) as [ext E].
  apply spread_onto_prefix with (ext := ext).
  - now apply spread_keys_NoDup.
  - exact D.
  - exact E.
Qed.

(** ** The base value of a responsive property *)

Lemma num_leb_refl (n : jsnum) : is_nan n = false -> num_leb n n = true.
Proof. destruct n; simpl; try reflexivity; try discriminate.
  intros _. apply Qle_bool_iff, Qle_refl. Qed.

Lemma num_leb_trans (a b c : jsnum) :
  num_leb a b = true -> num_leb b c = true -> num_leb a c = true.
Proof.
  destruct a, b, c; simpl; try reflexivity; try discriminate.
  rewrite !Qle_bool_iff. apply Qle_trans.
Qed.

Lemma num_ltb_leb (a b : jsnum) : num_ltb a b = true -> num_leb a b = true.
Proof.
  destruct a, b; simpl; try reflexivity; try discriminate.
  rewrite negb_true_iff. intros H. apply Qle_bool_iff.
  destruct (Qlt_le_dec q q0) as [L|L]; [now apply Qlt_le_weak|].
  apply Qle_bool_iff in L. congruence.
Qed.

Lemma num_ltb_false (a b : jsnum) :
  is_nan a = false -> is_nan b = false ->
  num_ltb a b = false -> num_leb b a = true.
Proof.
  destruct a, b; simpl; try reflexivity; try discriminate;
    intros _ _ H; now apply negb_false_iff in H.
Qed.

Lemma max_fold (values : list jsnum) :
  existsb is_nan values = false ->
  forall hi, is_nan hi = false ->
    let m := fold_left (fun hi n => if num_ltb hi n then n else hi) values hi in
    is_nan m = false
    /\ (m = hi \/ In m values)
    /\ num_leb hi m = true
    /\ forall n, In n values -> num_leb n m = true.
Proof.
  induction values as [|x values IH]; intros Hn hi Hhi; cbv zeta.
  - simpl. split; [exact Hhi|]. split; [now left|].
    split; [now apply num_leb_refl|]. intros n [].
  - simpl in Hn. apply orb_false_iff in Hn. destruct Hn as [Hx Hn].
    cbn [fold_left]. destruct (num_ltb hi x) eqn:L.
    + destruct (IH Hn x Hx) as (M1 & M2 & M3 & M4). repeat split; auto.
      * right. destruct M2 as [->|M2]; [now left|now right].
      * apply num_leb_trans with x; [now apply num_ltb_leb|exact M3].
      * intros n [<-|Hin]; auto.
    + destruct (IH Hn hi Hhi) as (M1 & M2 & M3 & M4). repeat split; auto.
      * destruct M2 as [->|M2]; [now left|right; now right].
      * intros n [<-|Hin]; auto.
        apply num_leb_trans with hi; [now apply num_ltb_false|exact M3].
Qed.

(** [Math.max] of arguments without [NaN]: one of the arguments, and at
    least as large as each of them. *)
Lemma math_max_spec (values : list jsnum) :
  values <> [] -> existsb is_nan values = false ->
  In (math_max values) values
  /\ forall n, In n values -> num_leb n (math_max values) = true.
Proof.
  intros Hne Hn. unfold math_max. rewrite Hn.
  destruct (max_fold values Hn NNegInf eq_refl) as (M1 & M2 & M3 & M4).
  split; [|exact M4]. destruct M2 as [E|M2]; [|exact M2].
  destruct values as [|x values]; [congruence|].
  pose proof (M4 x (or_introl eq_refl)) as Hx. rewrite E in Hx |- *.
  simpl in Hn. apply orb_false_iff in Hn. destruct Hn as [Nx _].
  destruct x; simpl in Hx, Nx; try discriminate. now left.
Qed.

Lemma In_numbers_of (n : jsnum) (l : list jsval) :
  In n (numbers_of l) <-> In (VNum n) l.
Proof.
  unfold numbers_of. rewrite in_flat_map. split.
  - intros (v & Hin & H). destruct v; simpl in H; try contradiction.
    destruct H as [<-|[]]. exact Hin.
  - intros H. exists (VNum n). split; [exact H|now left].
Qed.

(** X5: [getBaseFieldValue] gives a number back unchanged and answers
    [undefined] for every other primitive, for [null] and for functions.
    For an object or array it answers [undefined] exactly when no own
    value is a number; otherwise it answers [NaN] when one of them is,
    and else one of these numbers that is at least as large as each of
    them. *)
Theorem getBaseFieldValue_spec (value : jsval) :
  (is_number value = true -> getBaseFieldValue value = value)
  /\ (is_number value = false -> is_responsive_object value = false ->
      getBaseFieldValue value = VUndef)
  /\ (is_responsive_object value = true ->
      (getBaseFieldValue value = VUndef
       <-> forall n, ~ In (VNum n) (js_values value))
      /\ (In (VNum NNaN) (js_values value) ->
          getBaseFieldValue value = VNum NNaN)
      /\ ((exists n, In (VNum n) (js_values value)) ->
          ~ In (VNum NNaN) (js_values value) ->
          exists m, getBaseFieldValue value = VNum m
                    /\ In (VNum m) (js_values value)
                    /\ forall n, In (VNum n) (js_values value) ->
                                 num_leb n m = true)).
Proof.
  split; [|split].
  - unfold getBaseFieldValue. now intros ->.
  - unfold getBaseFieldValue, is_responsive_object. intros ->.
    destruct value; try reflexivity; discriminate.
  - intros Ho.
    assert (E : getBaseFieldValue value
                = match numbers_of (js_values value) with
                  | [] => VUndef
                  | _ => VNum (math_max (numbers_of (js_values value)))
                  end).
    { unfold is_responsive_object in Ho. apply andb_true_iff in Ho.
      destruct Ho as [_ Ho]. destruct value; try discriminate; reflexivity. }
    rewrite E. clear E Ho.
    assert (Nan : In NNaN (numbers_of (js_values value))
                  <-> existsb is_nan (numbers_of (js_values value)) = true).
    { rewrite existsb_exists. split.
      - intros H. now exists NNaN.
      - intros (x & Hx & Hn). now destruct x. }
    repeat split.
    + destruct (numbers_of (js_values value)) as [|x xs] eqn:En;
        [|discriminate].
      intros _ n Hin. apply In_numbers_of in Hin. now rewrite En in Hin.
    + intros H. destruct (numbers_of (js_values value)) as [|x xs] eqn:En;
        [reflexivity|].
      exfalso. apply (H x), In_numbers_of. rewrite En. now left.
    + intros H. apply In_numbers_of in H.
      destruct (numbers_of (js_values value)) as [|x xs] eqn:En;
        [destruct H|].
      unfold math_max. apply Nan in H. now rewrite H.
    + intros [n0 H0] Hnn. apply In_numbers_of in H0.
      assert (Hf : existsb is_nan (numbers_of (js_values value)) = false).
      { apply not_true_is_false. intros X.
        apply Hnn, In_numbers_of, Nan. exact X. }
      assert (Hne : numbers_of (js_values value) <> []).
      { intros X. now rewrite X in H0. }
      destruct (math_max_spec Hne Hf) as [M1 M2].
      exists (math_max (numbers_of (js_values value))).
      destruct (numbers_of (js_values value)) as [|x xs] eqn:En;
        [congruence|].
      repeat split.
      * apply In_numbers_of. rewrite En. exact M1.
      * intros n Hin. apply M2. apply In_numbers_of in Hin.
        now rewrite En in Hin.
Qed.

(** Instance of X5 at [{ sm: 1, lg: 3, md: 2 }]. *)
Lemma getBaseFieldValue_spec_witness :
  getBaseFieldValue (VObj [("sm", jint 1); ("lg", jint 3); ("md", jint 2)])
  = jint 3.
Proof.
  pose (value := VObj [("sm", jint 1); ("lg", jint 3); ("md", jint 2)]).
  destruct (getBaseFieldValue_spec value) as (_ & _ & H).
  destruct (H eq_refl) as (_ & _ & Hm).
  destruct Hm as (m & E & _ & _).
  - exists (NFin (inject_Z 1)). simpl. now left.
  - simpl. intros [H0|[H0|[H0|[]]]]; discriminate.
  - reflexivity.
Defined.

(** ** Grid properties of a layout *)

Lemma normalized_valid (layout : jsval) :
  isValidLayoutConfig (normalizeLayoutConfig layout) = true.
Proof.
  rewrite normalizeLayoutConfig_cases.
  destruct (isValidLayoutConfig layout) eqn:V; [|reflexivity].
  now apply spread_default_valid.
Qed.

Lemma valid_layout_checks (layout : jsval) :
  isValidLayoutConfig layout = true ->
  layout_checks (getProp layout "type") (getProp layout "columns")
                (getProp layout "gap") (getProp layout "responsive")
                (getProp layout "colSpan") (getProp layout "colStart")
                (getProp layout "colEnd") = true.
Proof.
  rewrite isValidLayoutConfig_checks.
  destruct layout; try discriminate; auto.
Qed.

Lemma valid_gap (layout : jsval) :
  isValidLayoutConfig layout = true ->
  truthy (getProp layout "gap") = true ->
  exists s, getProp layout "gap" = VStr s.
Proof.
  intros V T. apply valid_layout_checks in V. unfold layout_checks in V.
  rewrite !andb_true_iff in V. destruct V as [[[_ G] _] _].
  rewrite T in G. destruct (getProp layout "gap"); try discriminate.
  now exists s.
Qed.

Lemma valid_type (layout : jsval) :
  isValidLayoutConfig layout = true ->
  truthy (getProp layout "type") = false
  \/ getProp layout "type" = VStr "columns".
Proof.
  intros V. apply valid_layout_checks in V. unfold layout_checks in V.
  rewrite !andb_true_iff in V. destruct V as [[[[Ty _] _] _] _].
  destruct (truthy (getProp layout "type")); [right|now left].
  destruct (getProp layout "type"); try discriminate.
  simpl in Ty. apply negb_true_iff, negb_false_iff, String.eqb_eq in Ty.
  now subst.
Qed.

Lemma In_set_key (A : Type) (k k' : string) (v v' : A)
      (l : list (string * A)) :
  In (k, v) (set_key k' v' l) -> (k = k' /\ v = v') \/ In (k, v) l.
Proof.
  induction l as [|[k0 v0] l IH]; simpl.
  - intros [[= <- <-]|[]]. now left.
  - destruct (k' =? k0) eqn:E.
    + apply String.eqb_eq in E; subst. intros [[= <- <-]|H]; auto.
    + intros [H|H]; [auto|]. destruct (IH H); auto.
Qed.

Lemma css_record_set (k : string) (s : string) (r : list (string * jsval)) :
  In k grid_property_names -> css_record r ->
  css_record (set_key k (VStr s) r).
Proof.
  intros Hk Hr k' v' Hin. apply In_set_key in Hin.
  destruct Hin as [[-> ->]|Hin]; [|now apply Hr].
  split; [now exists s|exact Hk].
Qed.

Section CssFacts.

Variable ToString : jsval -> string.

Lemma grid_setup_record (layout : jsval) :
  css_record (grid_setup ToString (normalizeLayoutConfig layout) []).
Proof.
  unfold grid_setup.
  destruct (match getProp (normalizeLayoutConfig layout) "type" with
            | VStr s => s =? "columns"
            | _ => false
            end); [|intros k v []].
  cbv zeta.
  destruct (truthy (getProp (normalizeLayoutConfig layout) "gap")) eqn:G.
  - destruct (valid_gap _ (normalized_valid layout) G) as [s ->].
    repeat (apply css_record_set; [simpl; tauto|]). intros k v [].
  - repeat (apply css_record_set; [simpl; tauto|]). intros k v [].
Qed.

Lemma span_setup_record (layout : jsval) (r : list (string * jsval)) :
  css_record r -> css_record (span_setup ToString layout r).
Proof.
  intros Hr. unfold span_setup. cbv zeta.
  destruct (truthy (getProp layout "colSpan")); [|exact Hr].
  destruct (is_number (getProp layout "colSpan")).
  - apply css_record_set; [simpl; tauto|exact Hr].
  - destruct (numbers_of (js_values (getProp layout "colSpan")));
      [exact Hr|].
    apply css_record_set; [simpl; tauto|exact Hr].
Qed.

Lemma placement_setup_record (layout : jsval) (r : list (string * jsval)) :
  css_record r -> css_record (placement_setup ToString layout r).
Proof.
  intros Hr. unfold placement_setup. cbv zeta.
  destruct (truthy (number_or_undefined (getProp layout "colStart"))
            && truthy (number_or_undefined (getProp layout "colEnd"))).
  { apply css_record_set; [simpl; tauto|exact Hr]. }
  destruct (truthy (number_or_undefined (getProp layout "colStart"))).
  { apply css_record_set; [simpl; tauto|exact Hr]. }
  destruct (truthy (number_or_undefined (getProp layout "colEnd"))).
  { apply css_record_set; [simpl; tauto|exact Hr]. }
  exact Hr.
Qed.

(** X6: [generateCSSGridProperties] fails on [null] and [undefined] only;
    on every other argument, valid layout or not, it returns a record
    whose values are all strings and whose keys are among [display],
    [gridTemplateColumns], [gap], [gridColumn], [gridColumnStart] and
    [gridColumnEnd]. *)
End CssFacts.

Theorem generateCSSGridProperties_record (ToString : jsval -> string)
        (layout : jsval) :
  (generateCSSGridProperties ToString layout = None
   <-> layout = VUndef \/ layout = VNull)
  /\ forall r, generateCSSGridProperties ToString layout = Some r ->
       forall k v, In (k, v) r ->
                   (exists s, v = VStr s) /\ In k grid_property_names.
Proof.
  split.
  - unfold generateCSSGridProperties.
    destruct layout; split; try discriminate; auto;
      intros [H|H]; discriminate.
  - intros r H.
    assert (E : r = placement_setup ToString layout
                      (span_setup ToString layout
                         (grid_setup ToString (normalizeLayoutConfig layout) []))).
    { unfold generateCSSGridProperties in H.
      destruct layout; try discriminate; now injection H as <-. }
    rewrite E. apply placement_setup_record, span_setup_record,
                 grid_setup_record.
Qed.

(** Instance of X6 at [{ columns: 2, gap: '8px', colSpan: 2 }]. *)
Lemma generateCSSGridProperties_record_witness :
  exists s, VStr "8px" = VStr s.
Proof.
  pose (layout := VObj [("columns", jint 2); ("gap", VStr "8px");
                        ("colSpan", jint 2)]).
  destruct (generateCSSGridProperties_record ToString_sample layout)
    as [_ H].
  apply (H [("display", VStr "grid");
            ("gridTemplateColumns", VStr "repeat(2, 1fr)");
            ("gap", VStr "8px"); ("gridColumn", VStr "span 2")]
           eq_refl "gap" (VStr "8px")).
  simpl. tauto.
Defined.

Section GridFacts.

Variable ToString : jsval -> string.

Lemma assoc_span_setup (layout : jsval) (r : list (string * jsval))
      (k : string) :
  (k =? "gridColumn") = false ->
  assoc k (span_setup ToString layout r) = assoc k r.
Proof.
  intros Hk. unfold span_setup. cbv zeta.
  destruct (truthy (getProp layout "colSpan")); [|reflexivity].
  destruct (is_number (getProp layout "colSpan")).
  - now rewrite assoc_set_key, Hk.
  - destruct (numbers_of (js_values (getProp layout "colSpan")));
      [reflexivity|].
    now rewrite assoc_set_key, Hk.
Qed.

Lemma assoc_placement_setup (layout : jsval) (r : list (string * jsval))
      (k : string) :
  (k =? "gridColumn") = false -> (k =? "gridColumnStart") = false ->
  (k =? "gridColumnEnd") = false ->
  assoc k (placement_setup ToString layout r) = assoc k r.
Proof.
  intros H1 H2 H3. unfold placement_setup. cbv zeta.
  destruct (truthy (number_or_undefined (getProp layout "colStart"))
            && truthy (number_or_undefined (getProp layout "colEnd"))).
  { now rewrite assoc_set_key, H1. }
  destruct (truthy (number_or_undefined (getProp layout "colStart"))).
  { now rewrite assoc_set_key, H2. }
  destruct (truthy (number_or_undefined (getProp layout "colEnd"))).
  { now rewrite assoc_set_key, H3. }
  reflexivity.
Qed.

Lemma assoc_grid_setup_other (normalized : jsval) (k : string) :
  (k =? "display") = false -> (k =? "gridTemplateColumns") = false ->
  (k =? "gap") = false ->
  assoc k (grid_setup ToString normalized []) = None.
Proof.
  intros H1 H2 H3. unfold grid_setup.
  destruct (match getProp normalized "type" with
            | VStr s => s =? "columns"
            | _ => false
            end); [|reflexivity].
  cbv zeta. destruct (truthy (getProp normalized "gap"));
    rewrite !assoc_set_key, ?H1, ?H2, ?H3; reflexivity.
Qed.

Lemma generate_Some (layout : jsval) (r : list (string * jsval)) :
  generateCSSGridProperties ToString layout = Some r ->
  r = placement_setup ToString layout
        (span_setup ToString layout
           (grid_setup ToString (normalizeLayoutConfig layout) [])).
Proof.
  unfold generateCSSGridProperties.
  destruct layout; try discriminate; now intros [= <-].
Qed.

End GridFacts.

(** X7: for an argument the validator rejects, the grid declarations are
    those of the defaults: [display: grid], one column, a gap of [16px].
    For a valid layout they are omitted exactly when the layout carries
    its own falsy [type]; otherwise the column count is the layout's own
    [columns] entry when it has one, and 1 when it has none. *)
Theorem generateCSSGridProperties_grid (ToString : jsval -> string)
        (layout : jsval) (r : list (string * jsval)) :
  generateCSSGridProperties ToString layout = Some r ->
  (isValidLayoutConfig layout = false ->
   assoc "display" r = Some (VStr "grid")
   /\ assoc "gridTemplateColumns" r
      = Some (VStr ("repeat(" ++ ToString (jint 1) ++ ", 1fr)"))
   /\ assoc "gap" r = Some (VStr "16px"))
  /\ (isValidLayoutConfig layout = true ->
      (assoc "display" r = None
       <-> hasOwn layout "type" = true
           /\ truthy (getProp layout "type") = false)
      /\ (assoc "display" r = None ->
          assoc "gridTemplateColumns" r = None /\ assoc "gap" r = None)
      /\ (assoc "display" r <> None ->
          assoc "display" r = Some (VStr "grid")
          /\ assoc "gridTemplateColumns" r
             = Some (VStr ("repeat("
                             ++ ToString (if hasOwn layout "columns"
                                          then getProp layout "columns"
                                          else jint 1)
                             ++ ", 1fr)")))).
Proof.
  intros H. apply generate_Some in H. subst r.
  rewrite !assoc_placement_setup, !assoc_span_setup by reflexivity.
  rewrite normalizeLayoutConfig_cases. split.
  - intros ->. repeat split.
  - intros V. rewrite V. unfold grid_setup.
    rewrite !getProp_spread.
    destruct (hasOwn layout "type") eqn:O.
    + destruct (valid_type _ V) as [T|T].
      * assert (M : match getProp layout "type" with
                    | VStr s => s =? "columns"
                    | _ => false
                    end = false).
        { destruct (getProp layout "type"); try reflexivity.
          simpl in T. apply negb_false_iff, String.eqb_eq in T. now subst. }
        rewrite M. simpl. repeat split; auto; congruence.
      * rewrite T. simpl. cbv zeta.
        destruct (truthy _); simpl; repeat split; try discriminate;
          try (intros [_ X]; discriminate);
          destruct (hasOwn layout "columns"); reflexivity.
    + simpl. cbv zeta.
      destruct (truthy _); simpl; repeat split; try discriminate;
        try (intros [X _]; discriminate);
        destruct (hasOwn layout "columns"); reflexivity.
Qed.

(** Instance of X7 at the rejected [{ columns: 0, colSpan: 2 }]: the grid
    of the defaults, beside the span of the argument. *)
Lemma generateCSSGridProperties_grid_witness :
  let r := [("display", VStr "grid");
            ("gridTemplateColumns", VStr "repeat(1, 1fr)");
            ("gap", VStr "16px"); ("gridColumn", VStr "span 2")] in
  assoc "gap" r = Some (VStr "16px").
Proof.
  intros r.
  pose (layout := VObj [("columns", jint 0); ("colSpan", jint 2)]).
  assert (H : generateCSSGridProperties ToString_sample layout = Some r)
    by reflexivity.
  destruct (generateCSSGridProperties_grid ToString_sample layout H)
    as [Hi _].
  destruct (Hi eq_refl) as (_ & _ & G). exact G.
Defined.

(** X8: [gridColumnStart] and [gridColumnEnd] are never set together.
    When [colStart] and [colEnd] are both truthy numbers (neither 0 nor
    [NaN]) the record holds [gridColumn: start / end], whatever [colSpan]
    is, and neither of the two; [gridColumnStart] is set exactly for a
    truthy number [colStart] without such a [colEnd], and
    [gridColumnEnd] exactly the other way round. *)
Theorem generateCSSGridProperties_placement (ToString : jsval -> string)
        (layout : jsval) (r : list (string * jsval)) :
  generateCSSGridProperties ToString layout = Some r ->
  let colStart := number_or_undefined (getProp layout "colStart") in
  let colEnd := number_or_undefined (getProp layout "colEnd") in
  has_key "gridColumnStart" r && has_key "gridColumnEnd" r = false
  /\ (truthy colStart = true -> truthy colEnd = true ->
      assoc "gridColumn" r
      = Some (VStr (ToString colStart ++ " / " ++ ToString colEnd))
      /\ has_key "gridColumnStart" r = false
      /\ has_key "gridColumnEnd" r = false)
  /\ (has_key "gridColumnStart" r = true <->
      truthy colStart = true /\ truthy colEnd = false)
  /\ (has_key "gridColumnEnd" r = true <->
      truthy colStart = false /\ truthy colEnd = true)
  /\ (has_key "gridColumnStart" r = true ->
      assoc "gridColumnStart" r = Some (VStr (ToString colStart)))
  /\ (has_key "gridColumnEnd" r = true ->
      assoc "gridColumnEnd" r = Some (VStr (ToString colEnd))).
Proof.
  intros H colStart colEnd. apply generate_Some in H. subst r.
  unfold has_key, placement_setup. cbv zeta. fold colStart colEnd.
  assert (S0 : assoc "gridColumnStart"
                 (span_setup ToString layout
                    (grid_setup ToString (normalizeLayoutConfig layout) []))
               = None).
  { rewrite assoc_span_setup by reflexivity.
    now apply assoc_grid_setup_other. }
  assert (E0 : assoc "gridColumnEnd"
                 (span_setup ToString layout
                    (grid_setup ToString (normalizeLayoutConfig layout) []))
               = None).
  { rewrite assoc_span_setup by reflexivity.
    now apply assoc_grid_setup_other. }
  destruct (truthy colStart), (truthy colEnd); cbn [andb];
    rewrite ?assoc_set_key; cbn [String.eqb Ascii.eqb Bool.eqb];
    rewrite ?S0, ?E0; repeat split; try discriminate; try reflexivity;
    try (intros [X Y]; discriminate).
Qed.

(** Instance of X8 at [{ colStart: 2, colEnd: 4, colSpan: 3 }]. *)
Lemma generateCSSGridProperties_placement_witness :
  let r := [("display", VStr "grid");
            ("gridTemplateColumns", VStr "repeat(1, 1fr)");
            ("gap", VStr "16px"); ("gridColumn", VStr "2 / 4")] in
  assoc "gridColumn" r = Some (VStr "2 / 4").
Proof.
  intros r.
  pose (layout := VObj [("colStart", jint 2); ("colEnd", jint 4);
                        ("colSpan", jint 3)]).
  assert (H : generateCSSGridProperties ToString_sample layout = Some r)
    by reflexivity.
  destruct (generateCSSGridProperties_placement ToString_sample layout H)
    as (_ & Hb & _).
  destruct (Hb eq_refl eq_refl) as [G _]. exact G.
Defined.

Lemma numbers_of_index_strings (l : list jsval) :
  (forall v, In v l -> exists s, v = VStr s) ->
  forall i, numbers_of (map snd (index_entries i l)) = [].
Proof.
  induction l as [|x l IH]; intros H i; [reflexivity|].
  cbn [index_entries map snd]. unfold numbers_of. cbn [flat_map].
  destruct (H x (or_introl eq_refl)) as [s ->]. cbn [app].
  apply IH. intros v Hv. apply H. now right.
Qed.

Lemma numbers_of_string (s : string) :
  numbers_of (js_values (VStr s)) = [].
Proof.
  unfold js_values, js_entries. apply numbers_of_index_strings.
  unfold char_values. intros v Hv. apply in_map_iff in Hv.
  destruct Hv as (c & <- & _). eauto.
Qed.

(** X9: unless [colStart] and [colEnd] are both truthy numbers, the
    [gridColumn] of the record is the span of the base value of a truthy
    [colSpan], as [getBaseFieldValue] computes it, and is absent when
    [colSpan] is falsy or has no base value. *)
Theorem generateCSSGridProperties_span (ToString : jsval -> string)
        (layout : jsval) (r : list (string * jsval)) :
  generateCSSGridProperties ToString layout = Some r ->
  truthy (number_or_undefined (getProp layout "colStart"))
  && truthy (number_or_undefined (getProp layout "colEnd")) = false ->
  assoc "gridColumn" r
  = if truthy (getProp layout "colSpan")
    then match getBaseFieldValue (getProp layout "colSpan") with
         | VUndef => None
         | base => Some (VStr ("span " ++ ToString base))
         end
    else None.
Proof.
  intros H B. apply generate_Some in H. subst r.
  assert (G0 : assoc "gridColumn"
                 (grid_setup ToString (normalizeLayoutConfig layout) [])
               = None) by now apply assoc_grid_setup_other.
  assert (P : assoc "gridColumn"
                (placement_setup ToString layout
                   (span_setup ToString layout
                      (grid_setup ToString (normalizeLayoutConfig layout) [])))
              = assoc "gridColumn"
                  (span_setup ToString layout
                     (grid_setup ToString (normalizeLayoutConfig layout) []))).
  { unfold placement_setup. cbv zeta. rewrite B.
    destruct (truthy (number_or_undefined (getProp layout "colStart")));
      [now rewrite assoc_set_key|].
    destruct (truthy (number_or_undefined (getProp layout "colEnd")));
      [now rewrite assoc_set_key|reflexivity]. }
  rewrite P. unfold span_setup. cbv zeta.
  destruct (truthy (getProp layout "colSpan")) eqn:T; [|exact G0].
  unfold getBaseFieldValue.
  destruct (getProp layout "colSpan") as [| |b|n|s|l|ps|t];
    try discriminate; cbn [is_number typeof].
  - exact G0.
  - now rewrite assoc_set_key.
  - rewrite numbers_of_string. exact G0.
  - destruct (numbers_of (js_values (VArr l))); [exact G0|].
    now rewrite assoc_set_key.
  - destruct (numbers_of (js_values (VObj ps))); [exact G0|].
    now rewrite assoc_set_key.
  - exact G0.
Qed.

(** Instance of X9 at [{ colSpan: { sm: 1, lg: 3 } }]. *)
Lemma generateCSSGridProperties_span_witness :
  let r := [("display", VStr "grid");
            ("gridTemplateColumns", VStr "repeat(1, 1fr)");
            ("gap", VStr "16px"); ("gridColumn", VStr "span 3")] in
  assoc "gridColumn" r = Some (VStr "span 3").
Proof.
  intros r.
  pose (layout := VObj [("colSpan", VObj [("sm", jint 1); ("lg", jint 3)])]).
  assert (H : generateCSSGridProperties ToString_sample layout = Some r)
    by reflexivity.
  exact (generateCSSGridProperties_span ToString_sample layout H eq_refl).
Defined.

(** ** Responsive media queries *)

Lemma push_queries_spec (ToString : jsval -> string)
      (breakpoints : list (string * jsval)) (declaration : jsval -> string)
      (obj : jsval) (mediaQueries : list string) :
  push_queries ToString breakpoints declaration obj mediaQueries
  = mediaQueries
      ++ map (media_query ToString breakpoints declaration)
             (filter (emitted breakpoints) (js_entries obj)).
Proof.
  unfold push_queries. revert mediaQueries.
  induction (js_entries obj) as [|e es IH]; intros mq.
  - simpl. now rewrite app_nil_r.
  - cbn [fold_left filter]. rewrite IH. unfold emitted at 2.
    destruct (truthy (snd e) && truthy (plain_get breakpoints (fst e)));
      [|reflexivity].
    cbn [map]. now rewrite <- app_assoc.
Qed.

Lemma position_of_existsb (k : string) (l : list string) :
  forall i, match position_of k l i with
            | Some _ => existsb (String.eqb k) l = true
            | None => existsb (String.eqb k) l = false
            end.
Proof.
  induction l as [|x l IH]; intros i; simpl; [reflexivity|].
  destruct (k =? x); [reflexivity|]. apply IH.
Qed.

Lemma default_breakpoint_truthy (k : string) :
  truthy (plain_get default_breakpoints k) = known_breakpoint k.
Proof.
  unfold plain_get, known_breakpoint, default_breakpoints, responsiveKeys.
  cbn [assoc existsb].
  destruct (k =? "sm"); [reflexivity|].
  destruct (k =? "md"); [reflexivity|].
  destruct (k =? "lg"); [reflexivity|].
  destruct (k =? "xl"); [reflexivity|].
  cbn [orb]. unfold object_prototype.
  destruct (k =? "__proto__"); [now rewrite orb_true_r|].
  rewrite orb_false_r.
  pose proof (position_of_existsb k object_prototype_names 0) as P.
  destruct (position_of k object_prototype_names 0); now rewrite P.
Qed.

Lemma falsy_no_entries (v : jsval) : truthy v = false -> js_entries v = [].
Proof.
  destruct v as [| |b|n|s|l|ps|t]; try reflexivity; try discriminate.
  simpl. rewrite negb_false_iff. intros H. apply String.eqb_eq in H.
  now subst.
Qed.

(** X10: with the default breakpoints, [generateResponsiveCSS] joins one
    media query per entry of [layout.responsive], in the order of the
    entries, for exactly the entries whose count is truthy and whose key
    is [sm], [md], [lg], [xl] or the name of a member inherited from
    [Object.prototype]; a falsy [responsive] gives the empty string. *)
Theorem generateResponsiveCSS_default (ToString : jsval -> string)
        (layout : jsval) :
  layout <> VUndef -> layout <> VNull ->
  generateResponsiveCSS ToString layout None
  = Some (String.concat (String "010" EmptyString)
            (map (media_query ToString default_breakpoints
                              (columns_declaration ToString))
                 (filter (fun e => truthy (snd e) && known_breakpoint (fst e))
                         (js_entries (getProp layout "responsive"))))).
Proof.
  intros H1 H2.
  assert (E : generateResponsiveCSS ToString layout None
              = if negb (truthy (getProp layout "responsive"))
                then Some EmptyString
                else Some (String.concat (String "010" EmptyString)
                             (responsive_queries ToString layout None))).
  { destruct layout; try reflexivity; congruence. }
  rewrite E. clear E.
  destruct (truthy (getProp layout "responsive")) eqn:T; cbn [negb].
  - f_equal. f_equal. unfold responsive_queries. rewrite push_queries_spec.
    cbn [app breakpoints_or_default]. f_equal. apply filter_ext.
    intros e. unfold emitted. now rewrite default_breakpoint_truthy.
  - now rewrite (falsy_no_entries _ T).
Qed.

(** Instance of X10 at [{ responsive: { md: 2, xxl: 5, lg: 0, sm: 1 } }]:
    the unknown [xxl] and the zero count are skipped. *)
Lemma generateResponsiveCSS_default_witness :
  generateResponsiveCSS ToString_sample
    (VObj [("responsive",
            VObj [("md", jint 2); ("xxl", jint 5); ("lg", jint 0);
                  ("sm", jint 1)])]) None
  = Some (String.concat (String "010" EmptyString)
            ["@media (min-width: 768px) { grid-template-columns: repeat(2, 1fr); }";
             "@media (min-width: 640px) { grid-template-columns: repeat(1, 1fr); }"]).
Proof.
  rewrite generateResponsiveCSS_default by discriminate. reflexivity.
Defined.

Lemma positive_integer_truthy (v : jsval) :
  positive_integer v -> truthy v = true.
Proof.
  intros (q & z & -> & Hq & Hz). simpl. apply negb_true_iff.
  apply Z.eqb_neq. intros E. unfold Qeq in Hq. simpl in Hq.
  rewrite E in Hq. nia.
Qed.

(** X11: a valid layout loses none of its breakpoints: with the default
    breakpoints, every count of its [responsive] object that is defined
    under [sm], [md], [lg] or [xl] has its media query among those
    [generateResponsiveCSS] joins. *)
Theorem valid_breakpoints_emitted (ToString : jsval -> string)
        (layout : jsval) (rs : list (string * jsval)) (key : string)
        (v : jsval) :
  isValidLayoutConfig layout = true ->
  getProp layout "responsive" = VObj rs ->
  In key responsiveKeys -> assoc key rs = Some v -> v <> VUndef ->
  In (media_query ToString default_breakpoints (columns_declaration ToString)
                  (key, v))
     (responsive_queries ToString layout None).
Proof.
  intros V R Hk Hv Hu. unfold responsive_queries.
  rewrite push_queries_spec. cbn [app breakpoints_or_default].
  apply in_map. apply filter_In. rewrite R. split.
  - cbn [js_entries own_entries]. now apply assoc_In.
  - unfold emitted. cbn [fst snd]. rewrite default_breakpoint_truthy.
    apply andb_true_iff. split.
    + apply valid_layout_checks in V. unfold layout_checks in V.
      rewrite !andb_true_iff in V. destruct V as [[_ Hr] _].
      rewrite R in Hr. cbn [truthy andb] in Hr.
      apply negb_true_iff in Hr. rewrite bad_responsive_spec in Hr.
      specialize (Hr key Hk). unfold getProp in Hr. cbn [own_entries] in Hr.
      rewrite Hv in Hr. destruct Hr as [Hr|Hr]; [contradiction|].
      now apply positive_integer_truthy.
    + unfold known_breakpoint. apply orb_true_iff. left.
      apply orb_true_iff. left. apply existsb_exists. exists key.
      split; [exact Hk|apply String.eqb_refl].
Qed.

(** Instance of X11 at [{ responsive: { sm: 1, lg: 3 } }] and [lg]. *)
Lemma valid_breakpoints_emitted_witness :
  In "@media (min-width: 1024px) { grid-template-columns: repeat(3, 1fr); }"
     (responsive_queries ToString_sample
        (VObj [("responsive", VObj [("sm", jint 1); ("lg", jint 3)])]) None).
Proof.
  apply (@valid_breakpoints_emitted ToString_sample
           (VObj [("responsive", VObj [("sm", jint 1); ("lg", jint 3)])])
           [("sm", jint 1); ("lg", jint 3)] "lg" (jint 3)).
  - reflexivity.
  - reflexivity.
  - simpl. tauto.
  - reflexivity.
  - discriminate.
Defined.

(** ** Responsive field properties *)

Lemma push_field_queries_spec (ToString : jsval -> string)
      (breakpoints : list (string * jsval)) (property : string)
      (value : jsval) (mediaQueries : list string) :
  push_field_queries ToString breakpoints property value mediaQueries
  = mediaQueries ++ property_queries ToString breakpoints property value.
Proof.
  unfold push_field_queries, property_queries.
  destruct (is_responsive_object value).
  - apply push_queries_spec.
  - now rewrite app_nil_r.
Qed.

(** X12: [generateResponsiveFieldCSS] joins the media queries of
    [colSpan], then those of [colStart], then those of [colEnd]; each
    property contributes only when it is an object, one query per entry
    with a truthy value and a known breakpoint, in entry order.  A layout
    whose three properties are numbers or absent gives the empty
    string. *)
Theorem generateResponsiveFieldCSS_spec (ToString : jsval -> string)
        (layout : jsval) (breakpoints : option (list (string * jsval))) :
  layout <> VUndef -> layout <> VNull ->
  let bps := breakpoints_or_default breakpoints in
  generateResponsiveFieldCSS ToString layout breakpoints
  = Some (String.concat (String "010" EmptyString)
            (property_queries ToString bps "grid-column: span "
                              (getProp layout "colSpan")
             ++ property_queries ToString bps "grid-column-start: "
                                 (getProp layout "colStart")
             ++ property_queries ToString bps "grid-column-end: "
                                 (getProp layout "colEnd")))
  /\ (is_responsive_object (getProp layout "colSpan") = false ->
      is_responsive_object (getProp layout "colStart") = false ->
      is_responsive_object (getProp layout "colEnd") = false ->
      generateResponsiveFieldCSS ToString layout breakpoints
      = Some EmptyString).
Proof.
  intros H1 H2 bps.
  assert (E : generateResponsiveFieldCSS ToString layout breakpoints
              = Some (String.concat (String "010" EmptyString)
                        (field_queries ToString layout breakpoints))).
  { destruct layout; try reflexivity; congruence. }
  rewrite E. clear E. unfold field_queries. cbv zeta. fold bps.
  rewrite !push_field_queries_spec. cbn [app]. rewrite <- app_assoc.
  split; [reflexivity|].
  intros S1 S2 S3. unfold property_queries. now rewrite S1, S2, S3.
Qed.

(** Instance of X12 at
    [{ colSpan: { md: 2 }, colStart: 1, colEnd: { lg: 4 } }]. *)
Lemma generateResponsiveFieldCSS_spec_witness :
  generateResponsiveFieldCSS ToString_sample
    (VObj [("colSpan", VObj [("md", jint 2)]); ("colStart", jint 1);
           ("colEnd", VObj [("lg", jint 4)])]) None
  = Some (String.concat (String "010" EmptyString)
            ["@media (min-width: 768px) { grid-column: span 2; }";
             "@media (min-width: 1024px) { grid-column-end: 4; }"]).
Proof.
  pose (layout := VObj [("colSpan", VObj [("md", jint 2)]);
                        ("colStart", jint 1);
                        ("colEnd", VObj [("lg", jint 4)])]).
  destruct (@generateResponsiveFieldCSS_spec ToString_sample layout None)
    as [E _]; [discriminate|discriminate|].
  exact E.
Defined.

Lemma number_not_responsive (v : jsval) :
  truthy (number_or_undefined v) = true -> is_responsive_object v = false.
Proof.
  unfold number_or_undefined, is_responsive_object.
  destruct v; try discriminate. intros _. apply andb_false_r.
Qed.

(** X13: a fixed start or end and responsive ones exclude each other:
    when [generateCSSGridProperties] sets [gridColumnStart] the
    [colStart] block of [generateResponsiveFieldCSS] pushes no media
    query, and likewise for [gridColumnEnd] and the [colEnd] block. *)
Theorem fixed_placement_not_responsive (ToString : jsval -> string)
        (layout : jsval) (r : list (string * jsval))
        (breakpoints : list (string * jsval)) (mediaQueries : list string) :
  generateCSSGridProperties ToString layout = Some r ->
  (has_key "gridColumnStart" r = true ->
   push_field_queries ToString breakpoints "grid-column-start: "
                      (getProp layout "colStart") mediaQueries
   = mediaQueries)
  /\ (has_key "gridColumnEnd" r = true ->
      push_field_queries ToString breakpoints "grid-column-end: "
                         (getProp layout "colEnd") mediaQueries
      = mediaQueries).
Proof.
  intros H.
  assert (S0 : assoc "gridColumnStart"
                 (span_setup ToString layout
                    (grid_setup ToString (normalizeLayoutConfig layout) []))
               = None).
  { rewrite assoc_span_setup by reflexivity.
    now apply assoc_grid_setup_other. }
  assert (E0 : assoc "gridColumnEnd"
                 (span_setup ToString layout
                    (grid_setup ToString (normalizeLayoutConfig layout) []))
               = None).
  { rewrite assoc_span_setup by reflexivity.
    now apply assoc_grid_setup_other. }
  apply generate_Some in H. subst r.
  unfold has_key, placement_setup, push_field_queries. cbv zeta.
  destruct (truthy (number_or_undefined (getProp layout "colStart"))) eqn:S;
    destruct (truthy (number_or_undefined (getProp layout "colEnd"))) eqn:E;
    cbn [andb]; rewrite ?assoc_set_key;
    cbn [String.eqb Ascii.eqb Bool.eqb]; rewrite ?S0, ?E0;
    split; intros X; try discriminate;
    first [ now rewrite (number_not_responsive _ S)
          | now rewrite (number_not_responsive _ E) ].
Qed.

(** Instance of X13 at [{ colStart: 2 }]. *)
Lemma fixed_placement_not_responsive_witness :
  push_field_queries ToString_sample default_breakpoints
                     "grid-column-start: "
                     (getProp (VObj [("colStart", jint 2)]) "colStart") []
  = [].
Proof.
  pose (layout := VObj [("colStart", jint 2)]).
  assert (H : generateCSSGridProperties ToString_sample layout
              = Some [("display", VStr "grid");
                      ("gridTemplateColumns", VStr "repeat(1, 1fr)");
                      ("gap", VStr "16px"); ("gridColumnStart", VStr "2")])
    by reflexivity.
  destruct (@fixed_placement_not_responsive ToString_sample layout _
              default_breakpoints [] H) as [Hs _].
  apply Hs. reflexivity.
Defined.

Lemma concat_empty (sep : string) (l : list string) :
  (forall x, In x l -> x <> EmptyString) ->
  String.concat sep l = EmptyString -> l = [].
Proof.
  destruct l as [|x l]; [reflexivity|]. intros H E. exfalso.
  apply (H x (or_introl eq_refl)).
  destruct l; simpl in E; [exact E|].
  destruct x; [reflexivity|discriminate].
Qed.

(** X14: [generateResponsiveCSS] answers the empty string exactly when
    no entry of [layout.responsive] has both a truthy count and a
    breakpoint the [breakpoints] argument knows. *)
Theorem generateResponsiveCSS_empty (ToString : jsval -> string)
        (layout : jsval) (breakpoints : option (list (string * jsval)))
        (css : string) :
  generateResponsiveCSS ToString layout breakpoints = Some css ->
  (css = EmptyString
   <-> forall entry, In entry (js_entries (getProp layout "responsive")) ->
                     emitted (breakpoints_or_default breakpoints) entry
                     = false).
Proof.
  intros H.
  assert (E : Some css
              = if negb (truthy (getProp layout "responsive"))
                then Some EmptyString
                else Some (String.concat (String "010" EmptyString)
                             (responsive_queries ToString layout breakpoints))).
  { rewrite <- H. destruct layout; try reflexivity; discriminate. }
  clear H.
  destruct (truthy (getProp layout "responsive")) eqn:T; cbn [negb] in E.
  - injection E as ->. unfold responsive_queries.
    rewrite push_queries_spec. cbn [app]. split.
    + intros C. apply concat_empty in C.
      * apply map_eq_nil in C. intros entry Hin.
        destruct (emitted (breakpoints_or_default breakpoints) entry) eqn:X;
          [|reflexivity].
        assert (F : In entry
                      (filter (emitted (breakpoints_or_default breakpoints))
                         (js_entries (getProp layout "responsive"))))
          by (apply filter_In; now split).
        rewrite C in F. destruct F.
      * intros x Hx. apply in_map_iff in Hx. destruct Hx as (e & <- & _).
        discriminate.
    + intros Hn.
      assert (F : filter (emitted (breakpoints_or_default breakpoints))
                         (js_entries (getProp layout "responsive")) = []).
      { induction (js_entries (getProp layout "responsive")) as [|e es IH];
          [reflexivity|].
        simpl. rewrite (Hn e (or_introl eq_refl)). apply IH.
        intros entry Hin. apply Hn. now right. }
      now rewrite F.
  - injection E as ->. split; [|reflexivity].
    intros _ entry Hin. rewrite (falsy_no_entries _ T) in Hin. destruct Hin.
Qed.

(** Instance of X14 at [{ responsive: { lg: 0, wide: 3 } }]: the entry
    [wide] names no breakpoint. *)
Lemma generateResponsiveCSS_empty_witness :
  emitted default_breakpoints ("wide", jint 3) = false.
Proof.
  pose (layout := VObj [("responsive",
                         VObj [("lg", jint 0); ("wide", jint 3)])]).
  assert (H : generateResponsiveCSS ToString_sample layout None
              = Some EmptyString) by reflexivity.
  destruct (@generateResponsiveCSS_empty ToString_sample layout None _ H)
    as [E _].
  apply (E eq_refl ("wide", jint 3)). simpl. tauto.
Defined.

(** ** Layout information of a field, normalised and styled *)

(** X15: the layout information of a field can be normalised without a
    check, with the result of normalising the field's own [layout]; but
    [generateCSSGridProperties] fails on it exactly when the field has no
    layout, and on the container layout of an empty form. *)
Theorem layout_info_consumers (ToString : jsval -> string) (field : Field) :
  normalizeLayoutConfig (getFieldLayoutInfo field)
  = normalizeLayoutConfig (f_layout field)
  /\ (generateCSSGridProperties ToString (getFieldLayoutInfo field) = None
      <-> truthy (f_layout field) = false)
  /\ generateCSSGridProperties ToString (getFormContainerLayout []) = None.
Proof.
  unfold getFieldLayoutInfo, js_or. split; [|split; [|reflexivity]].
  - destruct (truthy (f_layout field)) eqn:T; [reflexivity|].
    unfold normalizeLayoutConfig. now rewrite T.
  - destruct (truthy (f_layout field)) eqn:T.
    + split; [|discriminate].
      unfold generateCSSGridProperties.
      destruct (f_layout field); try discriminate.
    + split; reflexivity.
Qed.

(** Instance of X15 at a field without layout. *)
Lemma layout_info_consumers_witness :
  let field := mkField "a" None None None "text" "text" false (VStr "string")
                 true VUndef VUndef VUndef VUndef VUndef VUndef VUndef VUndef
                 VUndef None VUndef VUndef VUndef None VUndef VUndef [] in
  generateCSSGridProperties ToString_sample (getFieldLayoutInfo field) = None.
Proof.
  intros field.
  destruct (layout_info_consumers ToString_sample field) as (_ & H & _).
  apply H. reflexivity.
Defined.

(** Instance of X2 at [{ columns: 3 }]. *)
Lemma isValidLayoutConfig_accepts_witness :
  count_ok (getProp (VObj [("columns", jint 3)]) "columns").
Proof.
  destruct (isValidLayoutConfig_accepts [("columns", jint 3)]) as [H _].
  destruct (H eq_refl) as (_ & C & _). exact C.
Defined.

(** Instance of X3 at the array [[5]]. *)
Lemma isValidLayoutConfig_by_type_witness :
  getProp (normalizeLayoutConfig (VArr [jint 5])) "columns" = jint 1.
Proof.
  destruct isValidLayoutConfig_by_type
    as (_ & _ & _ & _ & _ & _ & _ & _ & H).
  apply (H [jint 5] "columns"). simpl. tauto.
Defined.
